(** * A task-list web application: routes.py over a task store

    Shallow embedding of the five view functions of [routes.py] (blueprint
    [main]) together with the parts of Flask, Werkzeug and Flask-SQLAlchemy
    they rely on: URL matching (the integer converter, the second try with
    merged slashes), form access, flashing, redirects, the ORM session with
    its commit, and the error responses raised by [get_or_404], by an id that
    SQLite cannot hold and by a missing form key. *)

From Stdlib Require Import NArith Ascii DecimalString DecimalN.
From stdpp Require Import base list gmap strings.

Local Open Scope N_scope.
Local Open Scope string_scope.

(** ** Data model *)

(** Modelled from the spec: [models.py] is absent.  A [Task] has an integer
    primary key [id], a [title], a [description] and a [completed] flag that
    defaults to false.  The handlers only ever store a form string in
    [description], so the column is a plain string here. *)
Record Task := mkTask {
  id : N;
  title : string;
  description : string;
  completed : bool
}.

(** Modelled from the spec: [database.py] and the table behind it are absent.
    The store is one table, kept in insertion order, together with [next_id],
    the id the next created task receives ("assigns a new unique id", "never
    reused after deletion"). *)
Record store := mkStore {
  rows : list Task;
  next_id : N
}.

Definition empty_store : store := {| rows := []; next_id := 1 |}.

(** The largest id a lookup can ask for: [app.py] puts the table in SQLite
    ([sqlite:///tasks.db]), whose INTEGER is a signed 64-bit number.  A larger
    Python int cannot be bound as a query parameter (OverflowError). *)
Definition max_id : N := 9223372036854775807.

Definition has_id (k : N) (t : Task) : bool := bool_decide (id t = k).

(** Modelled from the spec: the statements the ORM issues against the table.
    [store_insert] is the INSERT for a new [Task(title=..., description=...)]:
    the store assigns the id and the [completed] default.  The other three
    select, update and delete by primary key. *)
Definition store_insert (title description : string) (s : store) : store :=
  {| rows := rows s ++ [mkTask (next_id s) title description false];
     next_id := next_id s + 1 |}.

Definition store_get (k : N) (s : store) : option Task :=
  find (has_id k) (rows s).

Definition store_update (k : N) (f : Task → Task) (s : store) : store :=
  {| rows := (λ t, if has_id k t then f t else t) <$> rows s;
     next_id := next_id s |}.

Definition store_delete (k : N) (s : store) : store :=
  {| rows := filter (λ t, id t ≠ k) (rows s);
     next_id := next_id s |}.

(** ** Requests and responses *)

Inductive method := GET | POST.

#[global] Instance method_eq_dec : EqDecision method.
Proof. solve_decision. Defined.

(** [req_form] is [request.form]: indexing it with a missing key raises, and
    [key in request.form] tests presence. *)
Record request := mkRequest {
  req_method : method;
  req_path : string;
  req_form : gmap string string
}.

(** The errors that can leave a view function or the URL matcher.  The first
    three are HTTP exceptions; [InternalServerError] is what any other
    exception that the view lets through is answered with. *)
Inductive HTTPException :=
  BadRequest | NotFound | MethodNotAllowed | InternalServerError.

Definition code (e : HTTPException) : N :=
  match e with
  | BadRequest => 400
  | NotFound => 404
  | MethodNotAllowed => 405
  | InternalServerError => 500
  end.

(** What a request is answered with: a rendered template (with the tasks
    handed to it), the redirect a view returns, the redirect the URL matcher
    itself sends to a path with its slashes merged, or an error page. *)
Inductive response :=
  | Html (template : string) (tasks : list Task)
  | Redirect (location : string)
  | RequestRedirect (location : string)
  | ErrorPage (e : HTTPException).

Definition status (r : response) : N :=
  match r with
  | Html _ _ => 200
  | Redirect _ => 302
  | RequestRedirect _ => 308
  | ErrorPage e => code e
  end.

(** ** The request context: ORM session and flashed messages *)

(** While a view function runs, [pending] is the session's view of the table
    (loaded objects with their uncommitted attribute writes, added and deleted
    objects), [committed] is the table as stored, and [flashed] the messages
    flashed so far. *)
Record ctx := mkCtx {
  committed : store;
  pending : store;
  flashed : list string
}.

Inductive outcome (A : Type) :=
  | Return (a : A)
  | Raise (e : HTTPException).
Arguments Return {A} a.
Arguments Raise {A} e.

Definition M (A : Type) : Type := ctx → outcome A * ctx.

Definition ret {A} (a : A) : M A := λ c, (Return a, c).

Definition bind {A B} (m : M A) (f : A → M B) : M B :=
  λ c, match m c with
       | (Return a, c') => f a c'
       | (Raise e, c') => (Raise e, c')
       end.

Definition abort {A} (e : HTTPException) : M A := λ c, (Raise e, c).

#[global] Instance M_ret : MRet M := @ret.
#[global] Instance M_bind : MBind M := λ A B f m, bind m f.

(** [request.form[key]] *)
Definition form_getitem (req : request) (key : string) : M string :=
  match req_form req !! key with
  | Some v => ret v
  | None => abort BadRequest
  end.

(** [key in request.form] *)
Definition form_contains (req : request) (key : string) : bool :=
  bool_decide (is_Some (req_form req !! key)).

(** [Task.query.all()] *)
Definition query_all : M (list Task) :=
  λ c, (Return (rows (pending c)), c).

(** [Task.query.get_or_404(task_id)]: the id is first bound as a parameter
    of the SELECT, which fails beyond [max_id] with an OverflowError that
    nothing catches; otherwise the row is looked up, and 404 raised when there
    is none. *)
Definition query_get_or_404 (task_id : N) : M Task :=
  λ c, if decide (max_id < task_id) then (Raise InternalServerError, c)
       else match store_get task_id (pending c) with
            | Some task => (Return task, c)
            | None => (Raise NotFound, c)
            end.

Definition with_pending (f : store → store) : M unit :=
  λ c, (Return (), mkCtx (committed c) (f (pending c)) (flashed c)).

(** [db.session.add(Task(title=title, description=description))] *)
Definition session_add (title description : string) : M unit :=
  with_pending (store_insert title description).

(** [db.session.delete(task)] *)
Definition session_delete (task : Task) : M unit :=
  with_pending (store_delete (id task)).

(** An attribute write [task.<field> = v] on a loaded object: the object is
    the session's row for its primary key. *)
Definition setattr (task : Task) (f : Task → Task) : M unit :=
  with_pending (store_update (id task) f).

Definition set_title (v : string) (t : Task) : Task :=
  mkTask (id t) v (description t) (completed t).
Definition set_description (v : string) (t : Task) : Task :=
  mkTask (id t) (title t) v (completed t).
Definition set_completed (v : bool) (t : Task) : Task :=
  mkTask (id t) (title t) (description t) v.

(** [db.session.commit()] *)
Definition session_commit : M unit :=
  λ c, (Return (), mkCtx (pending c) (pending c) (flashed c)).

(** [flash(message)] *)
Definition flash (message : string) : M unit :=
  λ c, (Return (), mkCtx (committed c) (pending c) (flashed c ++ [message])).

Definition render_template (template : string) (tasks : list Task) : M response :=
  ret (Html template tasks).

Definition redirect (location : string) : M response :=
  ret (Redirect location).

(** ** URLs *)

(** The endpoints of blueprint [main], with the value of their URL variable. *)
Inductive endpoint :=
  | main_index
  | main_new_task
  | main_edit_task (task_id : N)
  | main_delete_task (task_id : N)
  | main_toogle_task (task_id : N).

Definition str (n : N) : string := NilZero.string_of_uint (N.to_uint n).

(** [url_for(endpoint, task_id=...)], built from the rule strings of the
    [@main.route] decorators. *)
Definition url_for (e : endpoint) : string :=
  match e with
  | main_index => "/"
  | main_new_task => "/task/new"
  | main_edit_task task_id => "/task/" +:+ str task_id +:+ "/edit"
  | main_delete_task task_id => "/task/" +:+ str task_id +:+ "/delete"
  | main_toogle_task task_id => "/task/" +:+ str task_id +:+ "/toogle"
  end.

(** The pieces of a path between its slashes: ["/task/7/edit"] gives
    [""; "task"; "7"; "edit"]. *)
Fixpoint split_on (sep : ascii) (s : string) : list string :=
  match s with
  | EmptyString => [EmptyString]
  | String a s' =>
      if decide (a = sep) then EmptyString :: split_on sep s'
      else match split_on sep s' with
           | piece :: pieces => String a piece :: pieces
           | [] => [String a EmptyString]
           end
  end.

(** The decimal digits of Unicode (category Nd, as of Unicode 14.0), each
    script by the code point of its zero: the ten digits of a script follow
    one another.  The first is the ASCII zero. *)
Definition decimal_zeros : list N :=
  [48; 1632; 1776; 1984; 2406; 2534; 2662; 2790; 2918; 3046; 3174; 3302;
   3430; 3558; 3664; 3792; 3872; 4160; 4240; 6112; 6160; 6470; 6608; 6784;
   6800; 6992; 7088; 7232; 7248; 42528; 43216; 43264; 43472; 43504; 43600;
   44016; 65296; 66720; 68912; 69734; 69872; 69942; 70096; 70384; 70736;
   70864; 71248; 71360; 71472; 71904; 72016; 72784; 73040; 73120; 92768;
   92864; 93008; 120782; 120792; 120802; 120812; 120822; 123200; 123632;
   125264; 130032].

(** The value of a code point as a decimal digit, if it is one. *)
Definition digit_value (cp : N) : option N :=
  (λ zero, cp - zero) <$> find (λ zero, N.leb zero cp && N.ltb cp (zero + 10)) decimal_zeros.

Definition cons_digit (d : N) (u : Decimal.uint) : Decimal.uint :=
  match d with
  | 0 => Decimal.D0 u | 1 => Decimal.D1 u | 2 => Decimal.D2 u
  | 3 => Decimal.D3 u | 4 => Decimal.D4 u | 5 => Decimal.D5 u
  | 6 => Decimal.D6 u | 7 => Decimal.D7 u | 8 => Decimal.D8 u
  | _ => Decimal.D9 u
  end.

(** The low six bits of a UTF-8 continuation byte. *)
Definition continuation (a : ascii) : option N :=
  let b := N_of_ascii a in
  if N.leb 128 b && N.ltb b 192 then Some (b - 128) else None.

(** The digits of a path piece, read as UTF-8: [None] as soon as a character
    is no decimal digit.  A byte sequence that is not the UTF-8 form of a code
    point (truncated, overlong, out of range) is no digit either. *)
Fixpoint unicode_uint (s : string) : option Decimal.uint :=
  let digit (cp : N) (rest : option Decimal.uint) :=
    match digit_value cp, rest with
    | Some d, Some u => Some (cons_digit d u)
    | _, _ => None
    end in
  match s with
  | EmptyString => Some Decimal.Nil
  | String a1 s1 =>
      let b1 := N_of_ascii a1 in
      if N.ltb b1 128 then digit b1 (unicode_uint s1)
      else
        match s1 with
        | EmptyString => None
        | String a2 s2 =>
            match continuation a2 with
            | None => None
            | Some c2 =>
                if N.ltb b1 194 then None
                else if N.ltb b1 224 then
                  digit ((b1 - 192) * 64 + c2) (unicode_uint s2)
                else
                  match s2 with
                  | EmptyString => None
                  | String a3 s3 =>
                      match continuation a3 with
                      | None => None
                      | Some c3 =>
                          if N.ltb b1 240 then
                            let cp := (b1 - 224) * 4096 + c2 * 64 + c3 in
                            if N.ltb cp 2048 then None
                            else digit cp (unicode_uint s3)
                          else
                            match s3 with
                            | EmptyString => None
                            | String a4 s4 =>
                                match continuation a4 with
                                | None => None
                                | Some c4 =>
                                    let cp := (b1 - 240) * 262144 + c2 * 4096
                                              + c3 * 64 + c4 in
                                    if N.ltb cp 65536 || N.ltb 1114111 cp then None
                                    else digit cp (unicode_uint s4)
                                end
                            end
                      end
                  end
            end
        end
  end.

(** The [<int:...>] converter: one or more decimal digits ([\d+], which for
    text means the decimal digits of every script), read as [int()] reads
    them. *)
Definition int_converter (piece : string) : option N :=
  match piece with
  | EmptyString => None
  | _ => N.of_uint <$> unicode_uint piece
  end.

(** URL matching against the five rules
    ['/'], ['/task/new'], ['/task/<int:task_id>/edit'],
    ['/task/<int:task_id>/delete'] and ['/task/<int:task_id>/toogle'].
    A path fits a rule when it has the rule's pieces, one for one. *)
Definition url_match (path : string) : option endpoint :=
  match split_on "/"%char path with
  | [root; p1] =>
      if decide (root = "" ∧ p1 = "") then Some main_index else None
  | [root; p1; p2] =>
      if decide (root = "" ∧ p1 = "task" ∧ p2 = "new") then Some main_new_task
      else None
  | [root; p1; p2; p3] =>
      if decide (root = "" ∧ p1 = "task") then
        task_id ← int_converter p2;
        if decide (p3 = "edit") then Some (main_edit_task task_id)
        else if decide (p3 = "delete") then Some (main_delete_task task_id)
        else if decide (p3 = "toogle") then Some (main_toogle_task task_id)
        else None
      else None
  | _ => None
  end.

(** What the matcher does to a path that fits no rule as it stands, before
    trying once more: [re.sub("/{2,}?", "/", path)], which turns each pair of
    slashes, taken from the left, into one slash. *)
Fixpoint merge_slashes (path : string) : string :=
  match path with
  | String a (String b path' as rest) =>
      if decide (a = "/"%char ∧ b = "/"%char) then String "/" (merge_slashes path')
      else String a (merge_slashes rest)
  | _ => path
  end.

(** The [methods=[...]] argument of each rule (GET when absent). *)
Definition methods (e : endpoint) : list method :=
  match e with
  | main_index => [GET]
  | main_new_task => [GET; POST]
  | main_edit_task _ => [GET; POST]
  | main_delete_task _ => [POST]
  | main_toogle_task _ => [POST]
  end.

(** ** The view functions of routes.py *)

Definition index : M response :=
  tasks ← query_all;
  render_template "index.html" tasks.

Definition new_task (req : request) : M response :=
  if decide (req_method req = POST) then
    title ← form_getitem req "title";
    description ← form_getitem req "description";
    if decide (title = "") then
      flash "Title is required";;
      redirect (url_for main_new_task)
    else
      session_add title description;;
      session_commit;;
      redirect (url_for main_index)
  else render_template "create_task.html" [].

Definition edit_task (task_id : N) (req : request) : M response :=
  task ← query_get_or_404 task_id;
  if decide (req_method req = POST) then
    title ← form_getitem req "title";
    setattr task (set_title title);;
    description ← form_getitem req "description";
    setattr task (set_description description);;
    setattr task (set_completed (form_contains req "completed"));;
    session_commit;;
    redirect (url_for main_index)
  else render_template "edit_task.html" [task].

Definition delete_task (task_id : N) : M response :=
  task ← query_get_or_404 task_id;
  session_delete task;;
  session_commit;;
  redirect (url_for main_index).

Definition toogle_task (task_id : N) : M response :=
  task ← query_get_or_404 task_id;
  setattr task (set_completed (negb (completed task)));;
  session_commit;;
  redirect (url_for main_index).

Definition view (e : endpoint) (req : request) : M response :=
  match e with
  | main_index => index
  | main_new_task => new_task req
  | main_edit_task task_id => edit_task task_id req
  | main_delete_task task_id => delete_task task_id
  | main_toogle_task task_id => toogle_task task_id
  end.

(** ** Serving a request *)

(** What outlives a request: the stored table and the flashed messages. *)
Record world := mkWorld {
  database : store;
  flashes : list string
}.

(** Runs a view function in a fresh session.  An exception becomes its error
    page; whatever the session holds uncommitted at the end is dropped. *)
Definition dispatch (v : M response) (w : world) : response * world :=
  match v (mkCtx (database w) (database w) (flashes w)) with
  | (Return r, c) => (r, mkWorld (committed c) (flashed c))
  | (Raise e, c) => (ErrorPage e, mkWorld (committed c) (flashed c))
  end.

(** One request, start to end: the URL is matched first, then the method is
    checked against the rule (405), and only then does the view function run.
    A path that fits no rule is tried again with its slashes merged: if it
    fits then, the answer is a redirect (308) to the merged path, and 404
    otherwise.  Only GET and POST are modelled. *)
Definition serve (req : request) (w : world) : response * world :=
  match url_match (req_path req) with
  | Some e =>
      if decide (req_method req ∈ methods e) then dispatch (view e req) w
      else (ErrorPage MethodNotAllowed, w)
  | None =>
      match url_match (merge_slashes (req_path req)) with
      | Some e =>
          if decide (req_method req ∈ methods e)
          then (RequestRedirect (merge_slashes (req_path req)), w)
          else (ErrorPage MethodNotAllowed, w)
      | None => (ErrorPage NotFound, w)
      end
  end.

(** Serving requests one after the other. *)
Fixpoint serve_all (reqs : list request) (w : world) : list response * world :=
  match reqs with
  | [] => ([], w)
  | req :: reqs' =>
      let '(r, w') := serve req w in
      let '(rs, w'') := serve_all reqs' w' in
      (r :: rs, w'')
  end.

(** The stored task with a given id, if any.  The table holds no id beyond
    [max_id]. *)
Definition get (task_id : N) (w : world) : option Task :=
  if decide (task_id ≤ max_id)%N then store_get task_id (database w) else None.

(** A form from its submitted fields. *)
Definition form_of (fields : list (string * string)) : gmap string string :=
  list_to_map fields.

(** ** Vocabulary of the statements *)

(** A path piece without a slash. *)
Fixpoint no_slash (s : string) : bool :=
  match s with
  | EmptyString => true
  | String a s' => negb (Ascii.eqb a "/") && no_slash s'
  end.

(** The requests that run the edit, delete or toggle view on [task_id]. *)
Definition targets (task_id : N) (req : request) : Prop :=
  ∃ e, e ∈ [main_edit_task task_id; main_delete_task task_id;
            main_toogle_task task_id] ∧
       req_path req = url_for e ∧ req_method req ∈ methods e.

(** The four mutating operations, as the requests that perform them. *)
Inductive op :=
  | Create (title description : string)
  | Edit (task_id : N) (title description : string) (completed : bool)
  | Toggle (task_id : N)
  | Delete (task_id : N).

Definition request_of (o : op) : request :=
  match o with
  | Create t d =>
      mkRequest POST (url_for main_new_task)
        (form_of [("title", t); ("description", d)])
  | Edit task_id t d c =>
      mkRequest POST (url_for (main_edit_task task_id))
        (form_of ([("title", t); ("description", d)] ++
                  if c then [("completed", "on")] else []))
  | Toggle task_id => mkRequest POST (url_for (main_toogle_task task_id)) ∅
  | Delete task_id => mkRequest POST (url_for (main_delete_task task_id)) ∅
  end.

Definition ids (w : world) : list N := id <$> rows (database w).

Fixpoint remove_one (k : N) (l : list N) : list N :=
  match l with
  | [] => []
  | x :: l' => if decide (x = k) then l' else x :: remove_one k l'
  end.

(** What [after] holds beyond [before], counted with multiplicity: each id of
    [before] takes one occurrence of itself out of [after]. *)
Fixpoint added (before after : list N) : list N :=
  match before with
  | [] => after
  | k :: before' => added before' (remove_one k after)
  end.

(** The ids handed out while serving [reqs] from [w], in order: after each
    request, the ids on record beyond those that were on record before it.
    An id given to a second task while a first one holds it appears twice. *)
Fixpoint issued (reqs : list request) (w : world) : list N :=
  match reqs with
  | [] => []
  | req :: reqs' =>
      let w' := (serve req w).2 in
      added (ids w) (ids w') ++ issued reqs' w'
  end.

(** The operations that create a task: creations with a non-empty title. *)
Definition creates (o : op) : bool :=
  match o with
  | Create t _ => negb (bool_decide (t = EmptyString))
  | _ => false
  end.

Definition run (reqs : list request) (w : world) : world := (serve_all reqs w).2.

Definition initial : world := mkWorld empty_store [].

(** The primary key is unique, and every id on record is below [next_id]. *)
Definition store_ok (s : store) : Prop :=
  NoDup (id <$> rows s) ∧ Forall (λ k, k < next_id s) (id <$> rows s).

(** [s'] is a later state of [s]: still well formed, and any id it holds that
    [s] did not hold is at least [next_id s]. *)
Definition extends (s s' : store) : Prop :=
  store_ok s' ∧ (next_id s ≤ next_id s')%N ∧
  ∀ k, k ∈ id <$> rows s' → k ∈ id <$> rows s ∨ (next_id s ≤ k)%N.

(** A computation is [safe] when, run in a session whose committed and
    pending tables are later states of [s0], it leaves them so. *)
Definition safe {A} (m : M A) : Prop :=
  ∀ s0 c, extends s0 (committed c) → extends s0 (pending c) →
    extends s0 (committed (m c).2) ∧ extends s0 (pending (m c).2).


(** A path from its pieces, the inverse of [split_on] at the slash. *)
Fixpoint join_pieces (pieces : list string) : string :=
  match pieces with
  | [] => EmptyString
  | [piece] => piece
  | piece :: pieces' => piece +:+ String "/" (join_pieces pieces')
  end.

(** The ways a request can end: an error page, the matcher's redirect or a
    rendered page, all three without any change, or one of the five redirects
    of the views, each with the one write it stands for. *)
Inductive served (req : request) (w : world) : response → world → Prop :=
  | served_error e :
      served req w (ErrorPage e) w
  | served_merged location :
      served req w (RequestRedirect location) w
  | served_page template tasks :
      req_method req = GET →
      served req w (Html template tasks) w
  | served_rejected d :
      req_method req = POST →
      url_match (req_path req) = Some main_new_task →
      req_form req !! "title" = Some EmptyString →
      req_form req !! "description" = Some d →
      served req w (Redirect "/task/new")
        (mkWorld (database w) (flashes w ++ ["Title is required"]))
  | served_created t d :
      req_method req = POST →
      url_match (req_path req) = Some main_new_task →
      req_form req !! "title" = Some t →
      t ≠ EmptyString →
      req_form req !! "description" = Some d →
      served req w (Redirect "/")
        (mkWorld (store_insert t d (database w)) (flashes w))
  | served_edited task_id task t d :
      req_method req = POST →
      url_match (req_path req) = Some (main_edit_task task_id) →
      get task_id w = Some task →
      req_form req !! "title" = Some t →
      req_form req !! "description" = Some d →
      served req w (Redirect "/")
        (mkWorld
           (store_update task_id (set_completed (form_contains req "completed"))
              (store_update task_id (set_description d)
                 (store_update task_id (set_title t) (database w))))
           (flashes w))
  | served_deleted task_id task :
      req_method req = POST →
      url_match (req_path req) = Some (main_delete_task task_id) →
      get task_id w = Some task →
      served req w (Redirect "/")
        (mkWorld (store_delete task_id (database w)) (flashes w))
  | served_toggled task_id task :
      req_method req = POST →
      url_match (req_path req) = Some (main_toogle_task task_id) →
      get task_id w = Some task →
      served req w (Redirect "/")
        (mkWorld
           (store_update task_id (set_completed (negb (completed task)))
              (database w))
           (flashes w)).

(** ** Sanity checks on concrete requests *)

Example split_edit : split_on "/"%char "/task/7/edit" = [""; "task"; "7"; "edit"].
Proof. reflexivity. Qed.

Example match_edit : url_match "/task/12/edit" = Some (main_edit_task 12).
Proof. vm_compute. reflexivity. Qed.

Example match_trailing_slash : url_match "/task/new/" = None.
Proof. vm_compute. reflexivity. Qed.

Example url_for_delete : url_for (main_delete_task 30) = "/task/30/delete".
Proof. vm_compute. reflexivity. Qed.

(** The Arabic-Indic digit one, U+0661, in UTF-8. *)
Example arabic_indic_one :
  int_converter (String (ascii_of_N 217) (String (ascii_of_N 161) EmptyString))
  = Some 1.
Proof. vm_compute. reflexivity. Qed.

Example match_arabic_indic_id :
  url_match ("/task/" +:+ String (ascii_of_N 217) (String (ascii_of_N 161) "/edit"))
  = Some (main_edit_task 1).
Proof. vm_compute. reflexivity. Qed.

Example int_converter_leading_zeros : int_converter "007" = Some 7.
Proof. vm_compute. reflexivity. Qed.

Example int_converter_negative : int_converter "-1" = None.
Proof. vm_compute. reflexivity. Qed.

Example merge_two_slashes : merge_slashes "/task//1/edit" = "/task/1/edit".
Proof. reflexivity. Qed.

Example merge_three_slashes : merge_slashes "/task///1/edit" = "/task//1/edit".
Proof. reflexivity. Qed.

Example serve_doubled_slash :
  serve (mkRequest GET "/task//1/edit" ∅) (mkWorld empty_store []) =
  (RequestRedirect "/task/1/edit", mkWorld empty_store []).
Proof. vm_compute. reflexivity. Qed.

Example serve_doubled_slash_wrong_method :
  serve (mkRequest GET "/task//1/delete" ∅) (mkWorld empty_store []) =
  (ErrorPage MethodNotAllowed, mkWorld empty_store []).
Proof. vm_compute. reflexivity. Qed.

Example serve_id_beyond_range :
  serve (mkRequest GET "/task/9223372036854775808/edit" ∅) (mkWorld empty_store [])
  = (ErrorPage InternalServerError, mkWorld empty_store []).
Proof. vm_compute. reflexivity. Qed.

Example serve_largest_id :
  serve (mkRequest GET "/task/9223372036854775807/edit" ∅) (mkWorld empty_store [])
  = (ErrorPage NotFound, mkWorld empty_store []).
Proof. vm_compute. reflexivity. Qed.

Example serve_index_empty :
  serve (mkRequest GET "/" ∅) (mkWorld empty_store []) =
  (Html "index.html" [], mkWorld empty_store []).
Proof. vm_compute. reflexivity. Qed.

(** ** URL matching inverts URL building *)

Lemma split_on_nonempty sep s : split_on sep s ≠ [].
Proof.
  destruct s as [|a s]; simpl; [done|].
  case_decide; [done|]. by destruct (split_on sep s).
Qed.

Lemma split_on_last s : no_slash s = true → split_on "/" s = [s].
Proof.
  induction s as [|a s IH]; simpl; [done|].
  intros [Ha Hs]%andb_prop. rewrite (IH Hs).
  case_decide as Heq; [|done].
  subst a. discriminate Ha.
Qed.

Lemma split_on_piece s rest :
  no_slash s = true →
  split_on "/" (s +:+ String "/" rest) = s :: split_on "/" rest.
Proof.
  induction s as [|a s IH]; simpl.
  - done.
  - intros [Ha Hs]%andb_prop. rewrite (IH Hs).
    case_decide as Heq; [|done].
    subst a. discriminate Ha.
Qed.

Lemma no_slash_digits d : no_slash (NilEmpty.string_of_uint d) = true.
Proof. induction d; simpl; auto. Qed.

Lemma to_uint_nonnil n : N.to_uint n ≠ Decimal.Nil.
Proof.
  destruct n as [|p]; simpl; [discriminate|].
  apply DecimalPos.Unsigned.to_uint_nonnil.
Qed.

Lemma no_slash_str n : no_slash (str n) = true.
Proof.
  unfold str, NilZero.string_of_uint.
  destruct (N.to_uint n) eqn:E; try (rewrite <- E; apply no_slash_digits).
  reflexivity.
Qed.

Lemma str_nonempty n : str n ≠ "".
Proof.
  unfold str. pose proof (to_uint_nonnil n) as Hn.
  destruct (N.to_uint n); simpl; congruence.
Qed.

Lemma unicode_uint_ascii a s d :
  N.ltb (N_of_ascii a) 128 = true →
  digit_value (N_of_ascii a) = Some d →
  unicode_uint (String a s) = cons_digit d <$> unicode_uint s.
Proof.
  intros Ha Hd. cbn [unicode_uint]. rewrite Ha, Hd.
  by destruct (unicode_uint s).
Qed.

Lemma unicode_uint_digits d : unicode_uint (NilEmpty.string_of_uint d) = Some d.
Proof.
  induction d; cbn [NilEmpty.string_of_uint]; [done|..];
    (erewrite unicode_uint_ascii; [|vm_compute; reflexivity..]);
    by rewrite IHd.
Qed.

Lemma int_converter_str n : int_converter (str n) = Some n.
Proof.
  pose proof (str_nonempty n) as Hne. unfold int_converter.
  destruct (str n) as [|a s] eqn:E; [done|]. rewrite <- E. unfold str.
  pose proof (to_uint_nonnil n) as Hnil.
  replace (NilZero.string_of_uint (N.to_uint n))
    with (NilEmpty.string_of_uint (N.to_uint n))
    by (by destruct (N.to_uint n)).
  rewrite unicode_uint_digits. simpl. f_equal. apply DecimalN.Unsigned.of_to.
Qed.

Lemma split_task_url n suffix :
  no_slash suffix = true →
  split_on "/" ("/task/" +:+ str n +:+ String "/" suffix) =
  [""; "task"; str n; suffix].
Proof.
  intros Hs.
  change ("/task/" +:+ str n +:+ String "/" suffix)
    with ("" +:+ String "/" ("task" +:+ String "/" (str n +:+ String "/" suffix))).
  rewrite !split_on_piece by (done || apply no_slash_str).
  by rewrite split_on_last.
Qed.

Lemma merge_slashes_cons a s :
  a ≠ "/"%char → merge_slashes (String a s) = String a (merge_slashes s).
Proof.
  intros Ha. destruct s as [|b s]; simpl; [done|].
  rewrite decide_False; [done|]. by intros [? _].
Qed.

Lemma merge_slashes_piece s rest :
  no_slash s = true → merge_slashes (s +:+ rest) = s +:+ merge_slashes rest.
Proof.
  induction s as [|a s IH]; [done|]. cbn [no_slash].
  intros [Ha Hs]%andb_prop.
  change (String a s +:+ rest) with (String a (s +:+ rest)).
  change (String a s +:+ merge_slashes rest)
    with (String a (s +:+ merge_slashes rest)).
  rewrite merge_slashes_cons, IH; [done..|].
  intros ->. discriminate Ha.
Qed.

Lemma merge_slashes_slash_piece s rest :
  no_slash s = true → s ≠ EmptyString →
  merge_slashes (String "/" (s +:+ rest)) = String "/" (s +:+ merge_slashes rest).
Proof.
  intros Hs Hne. rewrite <- (merge_slashes_piece s rest) by done.
  destruct s as [|a s]; [done|]. cbn [no_slash] in Hs.
  apply andb_prop in Hs as [Ha _].
  change (String a s +:+ rest) with (String a (s +:+ rest)).
  change (merge_slashes (String "/" (String a (s +:+ rest))))
    with (if decide ("/"%char = "/"%char ∧ a = "/"%char)
          then String "/" (merge_slashes (s +:+ rest))
          else String "/" (merge_slashes (String a (s +:+ rest)))).
  rewrite decide_False; [done|]. intros [_ ->]. discriminate Ha.
Qed.


Lemma merge_task_url piece suffix :
  no_slash piece = true → piece ≠ EmptyString →
  merge_slashes ("/task/" +:+ piece +:+ String "/" suffix) =
  "/task/" +:+ piece +:+ merge_slashes (String "/" suffix).
Proof.
  intros Hs Hne.
  change ("/task/" +:+ piece +:+ String "/" suffix)
    with (String "/" ("task" +:+ String "/" (piece +:+ String "/" suffix))).
  rewrite merge_slashes_slash_piece by done.
  by rewrite merge_slashes_slash_piece by done.
Qed.

Lemma url_match_url_for e : url_match (url_for e) = Some e.
Proof.
  destruct e as [| |n|n|n]; [vm_compute; reflexivity..| | |];
    unfold url_match, url_for;
    rewrite split_task_url by reflexivity; cbv beta iota;
    rewrite decide_True by done; rewrite int_converter_str; reflexivity.
Qed.

Lemma join_split s : join_pieces (split_on "/" s) = s.
Proof.
  induction s as [|a s IH]; [done|]. cbn [split_on].
  destruct (split_on "/" s) as [|piece pieces] eqn:E;
    [by apply split_on_nonempty in E|].
  case_decide as Ha.
  - subst a.
    change (join_pieces (EmptyString :: piece :: pieces))
      with (String "/" (join_pieces (piece :: pieces))).
    by rewrite IH.
  - destruct pieces as [|piece' pieces]; simpl in *; by rewrite <- IH.
Qed.

Lemma url_match_new_task_inv path :
  url_match path = Some main_new_task → path = "/task/new".
Proof.
  intros H. rewrite <- (join_split path). unfold url_match in H.
  destruct (split_on "/" path) as [|a [|b [|c [|d [|? ?]]]]]; try discriminate H.
  - case_decide; discriminate H.
  - case_decide as Hd; [|discriminate H]. by destruct Hd as (-> & -> & ->).
  - case_decide; [|discriminate H].
    destruct (int_converter c); simpl in H; [|discriminate H].
    repeat case_decide; discriminate H.
Qed.

(** ** The table operations *)

Lemma store_get_id k s t : store_get k s = Some t → id t = k.
Proof.
  unfold store_get. intros [_ H]%find_some.
  unfold has_id in H. by apply bool_decide_eq_true in H.
Qed.

Lemma store_get_update k k' f s :
  (∀ t, id (f t) = id t) →
  store_get k (store_update k' f s) =
  if decide (k = k') then f <$> store_get k s else store_get k s.
Proof.
  intros Hf. unfold store_get, store_update, has_id.
  destruct (decide (k = k')) as [->|Hne]; simpl;
    induction (rows s) as [|t l IH]; simpl; try done.
  - destruct (bool_decide_reflect (id t = k')) as [Ht|Ht]; simpl.
    + rewrite Hf. by rewrite bool_decide_eq_true_2.
    + by rewrite bool_decide_eq_false_2.
  - destruct (bool_decide_reflect (id t = k')) as [Ht|Ht]; simpl.
    + rewrite Hf. by rewrite !bool_decide_eq_false_2 by congruence.
    + by destruct (bool_decide (id t = k)).
Qed.

Lemma store_get_delete k k' s :
  store_get k (store_delete k' s) =
  if decide (k = k') then None else store_get k s.
Proof.
  unfold store_get, store_delete, has_id.
  destruct (decide (k = k')) as [->|Hne]; simpl;
    induction (rows s) as [|t l IH]; simpl; try done;
    rewrite filter_cons; destruct (decide (id t ≠ k')) as [Ht|Ht]; simpl;
    rewrite ?IH; try done.
  - by rewrite bool_decide_eq_false_2.
  - apply dec_stable in Ht. by rewrite bool_decide_eq_false_2 by congruence.
Qed.

Lemma store_get_insert k title description s :
  store_get k (store_insert title description s) =
  match store_get k s with
  | Some t => Some t
  | None => if decide (k = next_id s)
            then Some (mkTask (next_id s) title description false) else None
  end.
Proof.
  unfold store_get, store_insert, has_id. simpl.
  induction (rows s) as [|t l IH]; simpl.
  - case_decide; subst.
    + by rewrite bool_decide_eq_true_2.
    + by rewrite bool_decide_eq_false_2.
  - by destruct (bool_decide (id t = k)).
Qed.

Lemma store_get_None k s : store_get k s = None ↔ k ∉ id <$> rows s.
Proof.
  unfold store_get, has_id. induction (rows s) as [|t l IH]; simpl.
  - split; [intros _; apply not_elem_of_nil | done].
  - rewrite not_elem_of_cons. case_bool_decide as Ht.
    + split; [done | intros [Hk _]; congruence].
    + rewrite IH. intuition congruence.
Qed.

Lemma set_title_id v t : id (set_title v t) = id t.
Proof. done. Qed.
Lemma set_description_id v t : id (set_description v t) = id t.
Proof. done. Qed.
Lemma set_completed_id v t : id (set_completed v t) = id t.
Proof. done. Qed.

(** ** What each view function does, case by case *)

Lemma world_eta w : mkWorld (database w) (flashes w) = w.
Proof. by destruct w. Qed.

Ltac run_view :=
  unfold dispatch, index, new_task, edit_task, delete_task, toogle_task,
    mbind, M_bind, bind, mret, M_ret, ret, abort, query_all, query_get_or_404,
    form_getitem, setattr, session_add, session_delete, session_commit,
    with_pending, flash, render_template, redirect; simpl.

Lemma serve_routed req w e :
  url_match (req_path req) = Some e →
  req_method req ∈ methods e →
  serve req w = dispatch (view e req) w.
Proof. intros He Hm. unfold serve. rewrite He. by rewrite decide_True. Qed.

(** Discharges the two side conditions of [serve_routed] from the equations
    [Hp] on the path and [Hm] on the method. *)
Ltac routed Hp Hm :=
  rewrite ?Hp, ?Hm;
  first [ apply url_match_url_for
        | vm_compute; reflexivity
        | simpl; repeat constructor ].

Lemma get_Some task_id w task :
  get task_id w = Some task →
  (task_id ≤ max_id)%N ∧ store_get task_id (database w) = Some task.
Proof. unfold get. by case_decide. Qed.

Lemma get_in_range task_id w :
  (task_id ≤ max_id)%N → get task_id w = store_get task_id (database w).
Proof. intros Hb. unfold get. by rewrite decide_True. Qed.

Lemma get_beyond task_id w : (max_id < task_id)%N → get task_id w = None.
Proof. intros Hb. unfold get. rewrite decide_False; [done|lia]. Qed.

Lemma get_ext k w w' :
  store_get k (database w') = store_get k (database w) → get k w' = get k w.
Proof. unfold get. by intros ->. Qed.

(** Inside a view, the lookup of an id in range sees the pending table. *)
Ltac in_range Hb := rewrite (decide_False (P:=(max_id < _)%N)) by lia.

Lemma dispatch_not_found task_id w (k : Task → M response) :
  (task_id ≤ max_id)%N →
  get task_id w = None →
  dispatch (query_get_or_404 task_id ≫= k) w = (ErrorPage NotFound, w).
Proof.
  intros Hb H. rewrite get_in_range in H by done.
  run_view. in_range Hb. rewrite H. simpl. by rewrite world_eta.
Qed.

Lemma dispatch_overflow task_id w (k : Task → M response) :
  (max_id < task_id)%N →
  dispatch (query_get_or_404 task_id ≫= k) w = (ErrorPage InternalServerError, w).
Proof.
  intros Hb. run_view. rewrite decide_True by done. simpl. by rewrite world_eta.
Qed.

Lemma dispatch_index w :
  dispatch index w = (Html "index.html" (rows (database w)), w).
Proof. run_view. by rewrite world_eta. Qed.

Lemma dispatch_new_task_get req w :
  req_method req = GET →
  dispatch (new_task req) w = (Html "create_task.html" [], w).
Proof. intros H. run_view. rewrite H. simpl. by rewrite world_eta. Qed.

Lemma dispatch_new_task_missing req w :
  req_method req = POST →
  req_form req !! "title" = None ∨ req_form req !! "description" = None →
  dispatch (new_task req) w = (ErrorPage BadRequest, w).
Proof.
  intros Hm H. run_view. rewrite Hm. simpl.
  destruct (req_form req !! "title") as [t|]; simpl.
  - destruct H as [H|H]; [done|]. rewrite H. simpl. by rewrite world_eta.
  - by rewrite world_eta.
Qed.

Lemma dispatch_new_task_empty req w d :
  req_method req = POST →
  req_form req !! "title" = Some "" →
  req_form req !! "description" = Some d →
  dispatch (new_task req) w =
  (Redirect "/task/new", mkWorld (database w) (flashes w ++ ["Title is required"])).
Proof. intros Hm Ht Hd. run_view. by rewrite Hm, Ht, Hd. Qed.

Lemma dispatch_new_task_created req w t d :
  req_method req = POST →
  req_form req !! "title" = Some t →
  req_form req !! "description" = Some d →
  t ≠ "" →
  dispatch (new_task req) w =
  (Redirect "/", mkWorld (store_insert t d (database w)) (flashes w)).
Proof.
  intros Hm Ht Hd Hne. run_view. rewrite Hm, Ht, Hd. simpl.
  by rewrite decide_False.
Qed.

Lemma dispatch_edit_task_get task_id req w task :
  req_method req = GET →
  get task_id w = Some task →
  dispatch (edit_task task_id req) w = (Html "edit_task.html" [task], w).
Proof.
  intros Hm [Hb Hg]%get_Some. run_view. in_range Hb.
  rewrite Hg, Hm. simpl. by rewrite world_eta.
Qed.

Lemma dispatch_edit_task_missing task_id req w task :
  req_method req = POST →
  get task_id w = Some task →
  req_form req !! "title" = None ∨ req_form req !! "description" = None →
  dispatch (edit_task task_id req) w = (ErrorPage BadRequest, w).
Proof.
  intros Hm [Hb Hg]%get_Some H. run_view. in_range Hb. rewrite Hg, Hm. simpl.
  destruct (req_form req !! "title") as [t|]; simpl.
  - destruct H as [H|H]; [done|]. rewrite H. simpl. by rewrite world_eta.
  - by rewrite world_eta.
Qed.

Lemma dispatch_edit_task_post task_id req w task t d :
  req_method req = POST →
  get task_id w = Some task →
  req_form req !! "title" = Some t →
  req_form req !! "description" = Some d →
  dispatch (edit_task task_id req) w =
  (Redirect "/",
   mkWorld (store_update task_id (set_completed (form_contains req "completed"))
              (store_update task_id (set_description d)
                 (store_update task_id (set_title t) (database w))))
           (flashes w)).
Proof.
  intros Hm [Hb Hg]%get_Some Ht Hd. run_view. in_range Hb.
  rewrite Hg, Hm. simpl. rewrite Ht. simpl.
  rewrite Hd. simpl. by rewrite (store_get_id _ _ _ Hg).
Qed.

Lemma dispatch_delete_task task_id w task :
  get task_id w = Some task →
  dispatch (delete_task task_id) w =
  (Redirect "/", mkWorld (store_delete task_id (database w)) (flashes w)).
Proof.
  intros [Hb Hg]%get_Some. run_view. in_range Hb.
  rewrite Hg. simpl. by rewrite (store_get_id _ _ _ Hg).
Qed.

Lemma dispatch_toogle_task task_id w task :
  get task_id w = Some task →
  dispatch (toogle_task task_id) w =
  (Redirect "/",
   mkWorld (store_update task_id (set_completed (negb (completed task)))
              (database w))
           (flashes w)).
Proof.
  intros [Hb Hg]%get_Some. run_view. in_range Hb.
  rewrite Hg. simpl. by rewrite (store_get_id _ _ _ Hg).
Qed.

(** ** Every request, by cases *)

Lemma method_cases (m : method) : m = GET ∨ m = POST.
Proof. destruct m; auto. Qed.

Lemma only_post (m : method) : m ∈ [POST] → m = POST.
Proof. by intros ->%list_elem_of_singleton. Qed.

Lemma only_get (m : method) : m ∈ [GET] → m = GET.
Proof. by intros ->%list_elem_of_singleton. Qed.

Lemma dispatch_unknown task_id w (k : Task → M response) :
  get task_id w = None →
  ∃ e, dispatch (query_get_or_404 task_id ≫= k) w = (ErrorPage e, w).
Proof.
  intros Hg. destruct (decide (task_id ≤ max_id)%N) as [Hb|Hb].
  - exists NotFound. by apply dispatch_not_found.
  - exists InternalServerError. apply dispatch_overflow. lia.
Qed.

Lemma dispatch_cases req w e :
  url_match (req_path req) = Some e →
  req_method req ∈ methods e →
  served req w (dispatch (view e req) w).1 (dispatch (view e req) w).2.
Proof.
  intros He Hm. destruct e as [| |task_id|task_id|task_id]; cbn [view methods] in *.
  - rewrite dispatch_index. by constructor; apply only_get.
  - destruct (method_cases (req_method req)) as [Hg|Hp].
    { rewrite dispatch_new_task_get by done. by constructor. }
    destruct (req_form req !! "title") as [t|] eqn:Ht;
      [|rewrite dispatch_new_task_missing by auto; constructor].
    destruct (req_form req !! "description") as [d|] eqn:Hd;
      [|rewrite dispatch_new_task_missing by auto; constructor].
    destruct (decide (t = EmptyString)) as [->|Hne].
    + rewrite (dispatch_new_task_empty _ _ d) by done. by econstructor.
    + rewrite (dispatch_new_task_created _ _ t d) by done. by constructor.
  - destruct (get task_id w) as [task|] eqn:Hg.
    2:{ unfold edit_task.
        destruct (dispatch_unknown task_id w
                    (λ task, if decide (req_method req = POST)
                             then title ← form_getitem req "title";
                                  setattr task (set_title title);;
                                  description ← form_getitem req "description";
                                  setattr task (set_description description);;
                                  setattr task
                                    (set_completed (form_contains req "completed"));;
                                  session_commit;; redirect (url_for main_index)
                             else render_template "edit_task.html" [task]) Hg)
          as [e ->]. constructor. }
    destruct (method_cases (req_method req)) as [Hget|Hp].
    { rewrite (dispatch_edit_task_get _ _ _ task) by done. by constructor. }
    destruct (req_form req !! "title") as [t|] eqn:Ht;
      [|rewrite (dispatch_edit_task_missing _ _ _ task) by auto; constructor].
    destruct (req_form req !! "description") as [d|] eqn:Hd;
      [|rewrite (dispatch_edit_task_missing _ _ _ task) by auto; constructor].
    rewrite (dispatch_edit_task_post _ _ _ task t d) by done.
    by eapply served_edited.
  - apply only_post in Hm.
    destruct (get task_id w) as [task|] eqn:Hg.
    2:{ unfold delete_task.
        destruct (dispatch_unknown task_id w
                    (λ task, session_delete task;; session_commit;;
                             redirect (url_for main_index)) Hg) as [e ->].
        constructor. }
    rewrite (dispatch_delete_task _ _ task) by done. by eapply served_deleted.
  - apply only_post in Hm.
    destruct (get task_id w) as [task|] eqn:Hg.
    2:{ unfold toogle_task.
        destruct (dispatch_unknown task_id w
                    (λ task, setattr task (set_completed (negb (completed task)));;
                             session_commit;; redirect (url_for main_index)) Hg)
          as [e ->]. constructor. }
    rewrite (dispatch_toogle_task _ _ task) by done. by eapply served_toggled.
Qed.

Lemma serve_cases req w : served req w (serve req w).1 (serve req w).2.
Proof.
  unfold serve. destruct (url_match (req_path req)) as [e|] eqn:He.
  - case_decide; [by apply dispatch_cases|constructor].
  - destruct (url_match (merge_slashes (req_path req))); [|constructor].
    case_decide; constructor.
Qed.

(** ** Creating tasks *)

(** C1: on a store with no tasks, POST /task/new with title "Buy milk" and
    description "2%" redirects to the list, and the GET / that follows lists
    exactly one task, with that title, that description and [completed]
    false. *)
Theorem create_then_list (post_new get_index : request) (w : world) :
  rows (database w) = [] →
  req_method post_new = POST →
  req_path post_new = "/task/new" →
  req_form post_new !! "title" = Some "Buy milk" →
  req_form post_new !! "description" = Some "2%" →
  req_method get_index = GET →
  req_path get_index = "/" →
  (serve_all [post_new; get_index] w).1 =
  [Redirect "/";
   Html "index.html" [mkTask (next_id (database w)) "Buy milk" "2%" false]].
Proof.
  intros Hrows Hm Hp Ht Hd Hm' Hp'. cbn [serve_all].
  rewrite (serve_routed post_new w main_new_task) by routed Hp Hm.
  cbn [view]. rewrite (dispatch_new_task_created _ _ _ _ Hm Ht Hd) by done.
  rewrite (serve_routed get_index _ main_index) by routed Hp' Hm'.
  cbn [view]. rewrite dispatch_index. unfold store_insert. simpl.
  by rewrite Hrows.
Qed.

Lemma create_then_list_witness :
  (serve_all
     [mkRequest POST "/task/new"
        (form_of [("title", "Buy milk"); ("description", "2%")]);
      mkRequest GET "/" ∅]
     (mkWorld empty_store [])).1 =
  [Redirect "/"; Html "index.html" [mkTask 1 "Buy milk" "2%" false]].
Proof. apply create_then_list; reflexivity. Defined.

(** C2, as amended: a POST to /task/new whose title is the empty string (the
    description field being present) creates no task, flashes "Title is
    required" and answers with a redirect (302) to /task/new; the creation
    form is rendered, with status 200, by the GET /task/new that follows the
    redirect. *)
Theorem new_task_empty_title (post_new get_new : request) (w : world) d :
  req_method post_new = POST →
  req_path post_new = "/task/new" →
  req_form post_new !! "title" = Some "" →
  req_form post_new !! "description" = Some d →
  req_method get_new = GET →
  req_path get_new = "/task/new" →
  ∃ r w',
    serve post_new w = (r, w') ∧
    database w' = database w ∧
    flashes w' = (flashes w ++ ["Title is required"])%list ∧
    r = Redirect (url_for main_new_task) ∧
    status r = 302 ∧
    serve get_new w' = (Html "create_task.html" [], w') ∧
    status (serve get_new w').1 = 200.
Proof.
  intros Hm Hp Ht Hd Hm' Hp'.
  eexists _, _. split.
  { rewrite (serve_routed post_new w main_new_task) by routed Hp Hm.
    cbn [view]. apply (dispatch_new_task_empty _ _ d); done. }
  rewrite (serve_routed get_new _ main_new_task) by routed Hp' Hm'.
  cbn [view]. rewrite dispatch_new_task_get by done. done.
Qed.

Lemma new_task_empty_title_witness :
  ∃ r w',
    serve (mkRequest POST "/task/new" (form_of [("title", ""); ("description", "x")]))
      (mkWorld empty_store []) = (r, w') ∧
    database w' = empty_store ∧
    flashes w' = ["Title is required"] ∧
    r = Redirect "/task/new" ∧
    status r = 302 ∧
    serve (mkRequest GET "/task/new" ∅) w' = (Html "create_task.html" [], w') ∧
    status (serve (mkRequest GET "/task/new" ∅) w').1 = 200.
Proof.
  apply (new_task_empty_title
           (mkRequest POST "/task/new" (form_of [("title", ""); ("description", "x")]))
           (mkRequest GET "/task/new" ∅) (mkWorld empty_store []) "x");
    reflexivity.
Defined.

(** C2 as stated fails: with an empty title the response is not the form
    with status 200 but a redirect. *)
Lemma new_task_empty_title_not_200 :
  let req := mkRequest POST "/task/new" (form_of [("title", ""); ("description", "")]) in
  let w := mkWorld empty_store [] in
  ¬ (database (serve req w).2 = database w ∧
     flashes (serve req w).2 ≠ flashes w ∧
     (∃ tasks, (serve req w).1 = Html "create_task.html" tasks) ∧
     status (serve req w).1 = 200).
Proof. vm_compute. intros (_ & _ & _ & H). discriminate H. Qed.

(** C10: a POST to /task/new whose form lacks the title key or the
    description key fails on the form access, before the empty-title check:
    the answer is the error page of the exception (400), neither the form nor
    a redirect, no task is created and nothing is flashed.  A description that
    is present but empty is accepted. *)
Theorem new_task_missing_field (req : request) (w : world) :
  req_method req = POST →
  req_path req = "/task/new" →
  req_form req !! "title" = None ∨ req_form req !! "description" = None →
  serve req w = (ErrorPage BadRequest, w) ∧
  ∀ req' t, req_method req' = POST → req_path req' = "/task/new" →
    req_form req' !! "title" = Some t → t ≠ "" →
    req_form req' !! "description" = Some "" →
    serve req' w =
    (Redirect "/", mkWorld (store_insert t "" (database w)) (flashes w)).
Proof.
  intros Hm Hp Hmiss. split.
  - rewrite (serve_routed req w main_new_task) by routed Hp Hm.
    cbn [view]. by apply dispatch_new_task_missing.
  - intros req' t Hm' Hp' Ht Hne Hd.
    rewrite (serve_routed req' w main_new_task) by routed Hp' Hm'.
    cbn [view]. by apply dispatch_new_task_created.
Qed.

Lemma new_task_missing_field_witness :
  serve (mkRequest POST "/task/new" (form_of [("title", "")])) (mkWorld empty_store [])
  = (ErrorPage BadRequest, mkWorld empty_store []) ∧
  serve (mkRequest POST "/task/new" (form_of [("title", "Buy milk"); ("description", "")]))
    (mkWorld empty_store [])
  = (Redirect "/", mkWorld (mkStore [mkTask 1 "Buy milk" "" false] 2) []).
Proof.
  destruct (new_task_missing_field
              (mkRequest POST "/task/new" (form_of [("title", "")]))
              (mkWorld empty_store [])) as [H1 H2];
    [reflexivity | reflexivity | right; reflexivity |].
  split; [exact H1|].
  apply (H2 _ "Buy milk"); (reflexivity || discriminate).
Defined.

(** ** Editing *)

(** C3: for an existing task id, POST /task/{id}/edit with title and
    description fields stores them (whatever the title, the empty string
    included), sets [completed] to true exactly when the form has a
    [completed] field, leaves every other task alone and redirects to the
    list view. *)
Theorem edit_task_overwrites (req : request) (w : world) task_id task t d :
  req_method req = POST →
  req_path req = url_for (main_edit_task task_id) →
  get task_id w = Some task →
  req_form req !! "title" = Some t →
  req_form req !! "description" = Some d →
  ∃ w' c,
    serve req w = (Redirect "/", w') ∧
    get task_id w' = Some (mkTask task_id t d c) ∧
    (c = true ↔ is_Some (req_form req !! "completed")) ∧
    ∀ k, k ≠ task_id → get k w' = get k w.
Proof.
  intros Hm Hp Hg Ht Hd. destruct (get_Some _ _ _ Hg) as [Hb Hs].
  eexists _, (form_contains req "completed").
  split; [|split; [|split]].
  - rewrite (serve_routed req w (main_edit_task task_id)) by routed Hp Hm.
    cbn [view]. by apply (dispatch_edit_task_post _ _ _ task).
  - rewrite get_in_range by done.
    simpl. rewrite !store_get_update, !decide_True by done.
    rewrite Hs. simpl. unfold set_completed, set_description, set_title. simpl.
    by rewrite (store_get_id _ _ _ Hs).
  - unfold form_contains. apply bool_decide_eq_true.
  - intros k Hk. apply get_ext. simpl.
    by rewrite !store_get_update, !decide_False by done.
Qed.

Lemma edit_task_overwrites_witness :
  ∃ w' c,
    serve (mkRequest POST "/task/1/edit" (form_of [("title", ""); ("description", "Updated")]))
      (mkWorld (mkStore [mkTask 1 "Buy milk" "2%" true] 2) []) = (Redirect "/", w') ∧
    get 1 w' = Some (mkTask 1 "" "Updated" c) ∧
    (c = true ↔ is_Some ((form_of [("title", ""); ("description", "Updated")]) !! "completed")) ∧
    ∀ k, k ≠ 1 → get k w' = get k (mkWorld (mkStore [mkTask 1 "Buy milk" "2%" true] 2) []).
Proof.
  apply (edit_task_overwrites
           (mkRequest POST "/task/1/edit"
              (form_of [("title", ""); ("description", "Updated")]))
           (mkWorld (mkStore [mkTask 1 "Buy milk" "2%" true] 2) [])
           1 (mkTask 1 "Buy milk" "2%" true) "" "Updated");
    reflexivity.
Defined.

Example edit_without_completed_clears_flag :
  serve (mkRequest POST "/task/1/edit" (form_of [("title", "Updated"); ("description", "2%")]))
    (mkWorld (mkStore [mkTask 1 "Buy milk" "2%" true] 2) [])
  = (Redirect "/", mkWorld (mkStore [mkTask 1 "Updated" "2%" false] 2) []).
Proof. vm_compute. reflexivity. Qed.

(** ** Toggling *)

(** C4: the rule for the toggle view is registered as
    /task/<int:task_id>/toogle, so a POST to /task/{id}/toggle matches no rule:
    it is answered 404 whether or not the task exists, and nothing is
    flipped. *)
Theorem toggle_path_not_routed (task_id : N) (m : method) form (w : world) :
  serve (mkRequest m ("/task/" +:+ str task_id +:+ "/toggle") form) w =
  (ErrorPage NotFound, w).
Proof.
  assert (url_match ("/task/" +:+ str task_id +:+ "/toggle") = None) as Hno.
  { unfold url_match. rewrite split_task_url by reflexivity. cbv beta iota.
    rewrite decide_True by done. by rewrite int_converter_str. }
  assert (merge_slashes ("/task/" +:+ str task_id +:+ "/toggle") =
          "/task/" +:+ str task_id +:+ "/toggle") as Hmerge.
  { by rewrite merge_task_url by (apply no_slash_str || apply str_nonempty). }
  unfold serve. cbn [req_path]. by rewrite Hno, Hmerge, Hno.
Qed.

Example toggle_path_existing_task :
  serve (mkRequest POST "/task/1/toggle" ∅)
    (mkWorld (mkStore [mkTask 1 "Buy milk" "2%" false] 2) [])
  = (ErrorPage NotFound, mkWorld (mkStore [mkTask 1 "Buy milk" "2%" false] 2) []).
Proof. vm_compute. reflexivity. Qed.

Example toogle_path_existing_task :
  serve (mkRequest POST "/task/1/toogle" ∅)
    (mkWorld (mkStore [mkTask 1 "Buy milk" "2%" false] 2) [])
  = (Redirect "/", mkWorld (mkStore [mkTask 1 "Buy milk" "2%" true] 2) []).
Proof. vm_compute. reflexivity. Qed.

Lemma serve_toogle (req : request) (w : world) task_id task :
  req_method req = POST →
  req_path req = url_for (main_toogle_task task_id) →
  get task_id w = Some task →
  serve req w =
  (Redirect "/",
   mkWorld (store_update task_id (set_completed (negb (completed task)))
              (database w))
           (flashes w)).
Proof.
  intros Hm Hp Hg.
  rewrite (serve_routed req w (main_toogle_task task_id)) by routed Hp Hm.
  cbn [view]. by apply dispatch_toogle_task.
Qed.

(** C5: toggling an existing task twice in succession brings its [completed]
    field (indeed the whole task) back to what it was. *)
Theorem toggle_twice (req : request) (w : world) task_id task :
  req_method req = POST →
  req_path req = url_for (main_toogle_task task_id) →
  get task_id w = Some task →
  ∃ w1 w2,
    serve req w = (Redirect "/", w1) ∧
    serve req w1 = (Redirect "/", w2) ∧
    completed <$> get task_id w1 = Some (negb (completed task)) ∧
    completed <$> get task_id w2 = Some (completed task) ∧
    get task_id w2 = Some task.
Proof.
  intros Hm Hp Hg.
  assert (get task_id
            (mkWorld (store_update task_id (set_completed (negb (completed task)))
                        (database w)) (flashes w))
          = Some (set_completed (negb (completed task)) task)) as Hg1.
  { destruct (get_Some _ _ _ Hg) as [Hb Hs]. rewrite get_in_range by done.
    simpl. rewrite store_get_update, decide_True by done. by rewrite Hs. }
  eexists _, _. split; [by apply (serve_toogle _ _ task_id task)|].
  split; [by eapply serve_toogle|].
  destruct (get_Some _ _ _ Hg1) as [Hb Hs1]. simpl in Hs1.
  rewrite Hg1. simpl. rewrite get_in_range by done. simpl.
  rewrite store_get_update, decide_True, Hs1 by done. simpl.
  rewrite negb_involutive. by destruct task.
Qed.

Lemma toggle_twice_witness :
  ∃ w1 w2,
    serve (mkRequest POST "/task/1/toogle" ∅)
      (mkWorld (mkStore [mkTask 1 "Buy milk" "2%" true] 2) []) = (Redirect "/", w1) ∧
    serve (mkRequest POST "/task/1/toogle" ∅) w1 = (Redirect "/", w2) ∧
    completed <$> get 1 w1 = Some false ∧
    completed <$> get 1 w2 = Some true ∧
    get 1 w2 = Some (mkTask 1 "Buy milk" "2%" true).
Proof.
  apply (toggle_twice (mkRequest POST "/task/1/toogle" ∅)
           (mkWorld (mkStore [mkTask 1 "Buy milk" "2%" true] 2) [])
           1 (mkTask 1 "Buy milk" "2%" true)); reflexivity.
Defined.

(** C6: toggling an existing task changes only its [completed] field: its
    id, title and description stay, every other task stays, and so do the
    ids on record, the next id and the flashed messages. *)
Theorem toggle_frame (req : request) (w : world) task_id task :
  req_method req = POST →
  req_path req = url_for (main_toogle_task task_id) →
  get task_id w = Some task →
  ∃ w',
    serve req w = (Redirect "/", w') ∧
    get task_id w' =
      Some (mkTask (id task) (title task) (description task) (negb (completed task))) ∧
    (∀ k, k ≠ task_id → get k w' = get k w) ∧
    id <$> rows (database w') = id <$> rows (database w) ∧
    next_id (database w') = next_id (database w) ∧
    flashes w' = flashes w.
Proof.
  intros Hm Hp Hg. eexists. split; [by apply (serve_toogle _ _ task_id task)|].
  destruct (get_Some _ _ _ Hg) as [Hb Hs].
  split; [|split; [|split]]; try done.
  - rewrite get_in_range by done. simpl.
    rewrite store_get_update, decide_True by done. by rewrite Hs.
  - intros k Hk. apply get_ext. simpl.
    by rewrite store_get_update, decide_False by done.
  - simpl. rewrite <- list_fmap_compose. apply list_fmap_ext.
    intros _ t _. simpl. by destruct (has_id task_id t).
Qed.

Lemma toggle_frame_witness :
  ∃ w',
    serve (mkRequest POST "/task/2/toogle" ∅)
      (mkWorld (mkStore [mkTask 1 "a" "b" true; mkTask 2 "c" "d" false] 3) ["m"])
    = (Redirect "/", w') ∧
    get 2 w' = Some (mkTask 2 "c" "d" true) ∧
    (∀ k, k ≠ 2 →
       get k w' =
       get k (mkWorld (mkStore [mkTask 1 "a" "b" true; mkTask 2 "c" "d" false] 3) ["m"])) ∧
    id <$> rows (database w') = [1; 2] ∧
    next_id (database w') = 3 ∧
    flashes w' = ["m"].
Proof.
  apply (toggle_frame (mkRequest POST "/task/2/toogle" ∅)
           (mkWorld (mkStore [mkTask 1 "a" "b" true; mkTask 2 "c" "d" false] 3) ["m"])
           2 (mkTask 2 "c" "d" false)); reflexivity.
Defined.

(** ** Unknown ids and deletion *)

Lemma serve_unknown_id (req : request) (w : world) task_id :
  (task_id ≤ max_id)%N →
  get task_id w = None →
  targets task_id req →
  serve req w = (ErrorPage NotFound, w).
Proof.
  intros Hb Hg (e & He & Hp & Hm).
  rewrite (serve_routed req w e) by (done || (rewrite Hp; apply url_match_url_for)).
  rewrite !elem_of_cons in He.
  destruct He as [->|[->|[->|He]]]; cbn [view];
    try (by apply dispatch_not_found).
  by apply elem_of_nil in He.
Qed.

Lemma serve_beyond_range (req : request) (w : world) task_id :
  (max_id < task_id)%N →
  targets task_id req →
  serve req w = (ErrorPage InternalServerError, w).
Proof.
  intros Hb (e & He & Hp & Hm).
  rewrite (serve_routed req w e) by (done || (rewrite Hp; apply url_match_url_for)).
  rewrite !elem_of_cons in He.
  destruct He as [->|[->|[->|He]]]; cbn [view];
    try (by apply dispatch_overflow).
  by apply elem_of_nil in He.
Qed.

(** C7, as amended: for an id that is not in the store and is at most
    [max_id] (2^63 - 1), the edit view (GET or POST), the delete view and the
    toggle view all answer 404 and leave the store, and the flashed messages,
    exactly as they were.  For a larger id the lookup itself fails: the
    answer is 500, and again nothing is changed. *)
Theorem unknown_id_not_found (req : request) (w : world) task_id :
  get task_id w = None →
  targets task_id req →
  ∃ r, serve req w = (r, w) ∧
       ((task_id ≤ max_id)%N → r = ErrorPage NotFound ∧ status r = 404) ∧
       ((max_id < task_id)%N → r = ErrorPage InternalServerError ∧ status r = 500).
Proof.
  intros Hg Ht. destruct (decide (task_id ≤ max_id)%N) as [Hb|Hb].
  - exists (ErrorPage NotFound).
    split; [by apply (serve_unknown_id _ _ task_id)|]. split; [done|lia].
  - exists (ErrorPage InternalServerError).
    split; [apply (serve_beyond_range _ _ task_id); [lia|done]|].
    split; [done|]. by intros _.
Qed.

Lemma unknown_id_not_found_witness :
  ∃ r, serve (mkRequest POST "/task/7/delete" ∅)
         (mkWorld (mkStore [mkTask 1 "a" "b" true] 2) []) =
       (r, mkWorld (mkStore [mkTask 1 "a" "b" true] 2) []) ∧
       r = ErrorPage NotFound ∧ status r = 404.
Proof.
  destruct (unknown_id_not_found (mkRequest POST "/task/7/delete" ∅)
              (mkWorld (mkStore [mkTask 1 "a" "b" true] 2) []) 7)
    as (r & Hserve & Hin & _).
  - reflexivity.
  - exists (main_delete_task 7). split; [|split].
    + apply list_elem_of_further, list_elem_of_here.
    + reflexivity.
    + apply list_elem_of_here.
  - exists r. split; [exact Hserve|]. apply Hin. by vm_compute.
Defined.

(** C7 as stated fails: the id 2^63 is in no store, and the delete view
    answers a request for it with 500, not 404. *)
Lemma unknown_id_beyond_range :
  let task_id := 9223372036854775808 in
  let req := mkRequest POST "/task/9223372036854775808/delete" ∅ in
  let w := mkWorld (mkStore [mkTask 1 "a" "b" true] 2) [] in
  get task_id w = None ∧
  targets task_id req ∧
  ¬ (∃ r, serve req w = (r, w) ∧ r = ErrorPage NotFound ∧ status r = 404).
Proof.
  split; [reflexivity|]. split.
  - exists (main_delete_task 9223372036854775808). split; [|split].
    + apply list_elem_of_further, list_elem_of_here.
    + vm_compute. reflexivity.
    + apply list_elem_of_here.
  - intros (r & Hserve & -> & _). vm_compute in Hserve. discriminate Hserve.
Qed.

Lemma serve_all_unknown_id (reqs : list request) (w : world) task_id :
  (task_id ≤ max_id)%N →
  get task_id w = None →
  Forall (targets task_id) reqs →
  serve_all reqs w = (replicate (length reqs) (ErrorPage NotFound), w).
Proof.
  intros Hb Hg. induction 1 as [|req reqs Hreq _ IH]; [done|].
  cbn [serve_all]. rewrite (serve_unknown_id _ _ task_id) by done.
  by rewrite IH.
Qed.

(** C8: once the delete view has succeeded on an existing id, a lookup of
    that id finds nothing, and every edit, delete or toggle request on it that
    follows, however many, is answered 404. *)
Theorem delete_then_not_found (req : request) (w : world) task_id task :
  req_method req = POST →
  req_path req = url_for (main_delete_task task_id) →
  get task_id w = Some task →
  ∃ w',
    serve req w = (Redirect "/", w') ∧
    get task_id w' = None ∧
    ∀ reqs, Forall (targets task_id) reqs →
      serve_all reqs w' = (replicate (length reqs) (ErrorPage NotFound), w').
Proof.
  intros Hm Hp Hg. destruct (get_Some _ _ _ Hg) as [Hb _]. eexists. split.
  { rewrite (serve_routed req w (main_delete_task task_id)) by routed Hp Hm.
    cbn [view]. by apply (dispatch_delete_task _ _ task). }
  assert (get task_id (mkWorld (store_delete task_id (database w)) (flashes w))
          = None) as Hgone.
  { rewrite get_in_range by done. simpl.
    by rewrite store_get_delete, decide_True. }
  split; [done|]. intros reqs Hreqs. by apply (serve_all_unknown_id _ _ task_id).
Qed.

Lemma delete_then_not_found_witness :
  ∃ w',
    serve (mkRequest POST "/task/1/delete" ∅)
      (mkWorld (mkStore [mkTask 1 "a" "b" true; mkTask 2 "c" "d" false] 3) [])
    = (Redirect "/", w') ∧
    get 1 w' = None ∧
    ∀ reqs, Forall (targets 1) reqs →
      serve_all reqs w' = (replicate (length reqs) (ErrorPage NotFound), w').
Proof.
  apply (delete_then_not_found (mkRequest POST "/task/1/delete" ∅)
           (mkWorld (mkStore [mkTask 1 "a" "b" true; mkTask 2 "c" "d" false] 3) [])
           1 (mkTask 1 "a" "b" true)); reflexivity.
Defined.

(** ** Ids over the lifetime of the store *)

Example issued_after_delete :
  issued (request_of <$> [Create "a" ""; Delete 1; Create "b" ""; Create "" "";
                          Toggle 2; Create "c" ""]) initial = [1; 2; 3].
Proof. vm_compute. reflexivity. Qed.

Lemma empty_store_ok : store_ok empty_store.
Proof. split; simpl; [apply NoDup_nil_2 | apply Forall_nil_2]. Qed.

Lemma extends_refl s : store_ok s → extends s s.
Proof. intros Hs. split; [done|]. split; [lia|]. auto. Qed.

Lemma extends_trans s1 s2 s3 : extends s1 s2 → extends s2 s3 → extends s1 s3.
Proof.
  intros (_ & Hn12 & H12) (Hok & Hn23 & H23).
  split; [done|]. split; [lia|].
  intros k Hk. destruct (H23 k Hk) as [Hk2|Hk2]; [auto|right; lia].
Qed.

Lemma store_insert_extends t d s : store_ok s → extends s (store_insert t d s).
Proof.
  intros [Hnd Hlt]. unfold extends, store_ok, store_insert. simpl.
  rewrite fmap_app. simpl. rewrite Forall_forall in Hlt.
  split; [split|split].
  - apply NoDup_app. split; [done|]. split; [|apply NoDup_singleton].
    intros k Hk%Hlt Hk'%list_elem_of_singleton. lia.
  - apply Forall_app. split.
    + apply Forall_forall. intros k Hk%Hlt. lia.
    + apply Forall_singleton. lia.
  - lia.
  - intros k [Hk|Hk%list_elem_of_singleton]%elem_of_app; [auto|right; lia].
Qed.

Lemma store_update_ids k f s :
  (∀ t, id (f t) = id t) →
  id <$> rows (store_update k f s) = id <$> rows s.
Proof.
  intros Hf. unfold store_update. simpl. rewrite <- list_fmap_compose.
  apply list_fmap_ext. intros _ t _. simpl. by destruct (has_id k t).
Qed.

Lemma store_update_extends k f s :
  (∀ t, id (f t) = id t) → store_ok s → extends s (store_update k f s).
Proof.
  intros Hf Hs. unfold extends, store_ok.
  rewrite store_update_ids by done. simpl. split; [done|]. split; [lia|auto].
Qed.

Lemma store_delete_ids k s :
  id <$> rows (store_delete k s) = filter (λ i, i ≠ k) (id <$> rows s).
Proof.
  unfold store_delete. simpl. induction (rows s) as [|t l IH]; [done|].
  rewrite fmap_cons, !filter_cons.
  destruct (decide (id t ≠ k)); rewrite ?fmap_cons; by rewrite IH.
Qed.

Lemma store_delete_extends k s : store_ok s → extends s (store_delete k s).
Proof.
  intros [Hnd Hlt]. unfold extends, store_ok.
  rewrite store_delete_ids. simpl. split; [split|split].
  - by apply NoDup_filter.
  - rewrite Forall_forall in Hlt. apply Forall_forall.
    intros i [_ Hi]%list_elem_of_filter. auto.
  - lia.
  - intros i [_ Hi]%list_elem_of_filter. auto.
Qed.

Section Safe.
Context {A B : Type}.

Lemma safe_ret (a : A) : safe (mret a).
Proof. by intros s0 c Hc Hp. Qed.

Lemma safe_abort e : safe (@abort A e).
Proof. by intros s0 c Hc Hp. Qed.

Lemma safe_bind (m : M A) (f : A → M B) :
  safe m → (∀ a, safe (f a)) → safe (m ≫= f).
Proof.
  intros Hm Hf s0 c Hc Hp. unfold mbind, M_bind, bind.
  destruct (Hm s0 c Hc Hp) as [Hc' Hp'].
  destruct (m c) as [[a|e] c']; simpl in *; [by apply Hf|done].
Qed.
End Safe.

Lemma safe_form_getitem req key : safe (form_getitem req key).
Proof.
  unfold form_getitem. destruct (req_form req !! key);
    [apply safe_ret | apply safe_abort].
Qed.

Lemma safe_query_all : safe query_all.
Proof. by intros s0 c Hc Hp. Qed.

Lemma safe_query_get_or_404 task_id : safe (query_get_or_404 task_id).
Proof.
  intros s0 c Hc Hp. unfold query_get_or_404.
  case_decide; [done|]. by destruct (store_get task_id (pending c)).
Qed.

Lemma safe_with_pending f :
  (∀ s, store_ok s → extends s (f s)) → safe (with_pending f).
Proof.
  intros Hf s0 c Hc Hp. simpl. split; [done|].
  eapply extends_trans; [done|]. apply Hf, Hp.
Qed.

Lemma safe_session_add t d : safe (session_add t d).
Proof. apply safe_with_pending, store_insert_extends. Qed.

Lemma safe_session_delete task : safe (session_delete task).
Proof. apply safe_with_pending, store_delete_extends. Qed.

Lemma safe_setattr task f : (∀ t, id (f t) = id t) → safe (setattr task f).
Proof.
  intros Hf. apply safe_with_pending. intros s. by apply store_update_extends.
Qed.

Lemma safe_session_commit : safe session_commit.
Proof. by intros s0 c Hc Hp. Qed.

Lemma safe_flash message : safe (flash message).
Proof. by intros s0 c Hc Hp. Qed.

Create HintDb safe.
#[local] Hint Resolve safe_ret safe_abort safe_form_getitem safe_query_all
  safe_query_get_or_404 safe_session_add safe_session_delete safe_setattr
  safe_session_commit safe_flash set_title_id set_description_id
  set_completed_id : safe.

Ltac safe_view :=
  repeat first
    [ apply safe_bind; [|intros ?]
    | case_decide
    | progress unfold render_template, redirect, ret
    | apply (safe_ret (A:=response))
    | solve [auto with safe] ].

Lemma safe_view_function e req : safe (view e req).
Proof.
  destruct e; simpl;
    unfold index, new_task, edit_task, delete_task, toogle_task; safe_view.
Qed.

Lemma dispatch_extends v w :
  safe v → store_ok (database w) →
  extends (database w) (database (dispatch v w).2).
Proof.
  intros Hv Hw. unfold dispatch.
  destruct (Hv (database w) (mkCtx (database w) (database w) (flashes w)))
    as [Hc _]; [by apply extends_refl..|].
  by destruct (v _) as [[r|e] c].
Qed.

Lemma serve_extends req w :
  store_ok (database w) → extends (database w) (database (serve req w).2).
Proof.
  intros Hw. unfold serve.
  destruct (url_match (req_path req)) as [e|].
  - case_decide; [|by apply extends_refl].
    apply dispatch_extends; [apply safe_view_function|done].
  - destruct (url_match (merge_slashes (req_path req)));
      [case_decide|]; by apply extends_refl.
Qed.

(** The invariant of the spec's data model: whatever requests are served from
    a well-formed store, ids stay unique. *)
Lemma run_store_ok reqs w : store_ok (database w) → store_ok (database (run reqs w)).
Proof.
  revert w. induction reqs as [|req reqs IH]; intros w Hw; [done|].
  unfold run in *. cbn [serve_all].
  pose proof (serve_extends req w Hw) as (Hw' & _).
  destruct (serve req w) as [r w']. specialize (IH w' Hw').
  by destruct (serve_all reqs w').
Qed.

Lemma run_extends reqs w :
  store_ok (database w) → extends (database w) (database (run reqs w)).
Proof.
  revert w. induction reqs as [|req reqs IH]; intros w Hw;
    [by apply extends_refl|].
  unfold run in *. cbn [serve_all].
  pose proof (serve_extends req w Hw) as Hstep.
  destruct (serve req w) as [r w']. simpl in Hstep.
  specialize (IH w' (proj1 Hstep)).
  destruct (serve_all reqs w'). simpl in *. by eapply extends_trans.
Qed.

(** With ids handed out from [next_id], a deleted id stays unknown whatever
    requests follow, creations included. *)
Lemma deleted_id_stays_unknown task_id reqs w :
  store_ok (database w) →
  (task_id < next_id (database w))%N →
  get task_id w = None →
  get task_id (run reqs w) = None.
Proof.
  intros Hw Hlt Hg. destruct (decide (task_id ≤ max_id)%N) as [Hb|Hb];
    [|apply get_beyond; lia].
  rewrite get_in_range in * by done. rewrite store_get_None in *.
  intros Hin. destruct (run_extends reqs w Hw) as (_ & _ & Hnew).
  destruct (Hnew _ Hin) as [?|?]; [done|lia].
Qed.

Lemma remove_one_sublist k l : remove_one k l `sublist_of` l.
Proof.
  induction l as [|x l IH]; simpl; [done|].
  case_decide; [by apply sublist_cons|by apply sublist_skip].
Qed.

Lemma added_sublist before after :
  after `sublist_of` before → added before after = [].
Proof.
  revert after. induction before as [|k before IH]; intros after Hsub; simpl.
  - by apply sublist_nil_r.
  - apply IH. apply sublist_cons_r in Hsub as [Hsub|(after' & -> & Hsub)].
    + etrans; [apply remove_one_sublist|done].
    + simpl. by rewrite decide_True.
Qed.

Lemma added_app before l : added before (before ++ l) = l.
Proof.
  induction before as [|k before IH]; simpl; [done|]. by rewrite decide_True.
Qed.

Lemma url_for_not_new e : e ≠ main_new_task → url_for e ≠ "/task/new".
Proof.
  intros He Heq. apply He, (inj Some).
  by rewrite <- (url_match_url_for e), Heq.
Qed.

(** No request but one to /task/new puts an id on record. *)
Lemma serve_ids_sublist req w :
  req_path req ≠ "/task/new" →
  ids (serve req w).2 `sublist_of` ids w ∧
  next_id (database (serve req w).2) = next_id (database w).
Proof.
  intros Hp. pose proof (serve_cases req w) as H.
  destruct (serve req w) as [r w']. unfold ids. simpl in *.
  destruct H as [| | | |t d _ Hnew _ _ _| | |]; cbn [database];
    try (by apply url_match_new_task_inv in Hnew);
    (split; [|done]);
    rewrite ?store_update_ids, ?store_delete_ids by done;
    try done.
  apply sublist_filter.
Qed.

(** Every request hands out no id, or exactly the store's [next_id]. *)
Lemma serve_added req w :
  added (ids w) (ids (serve req w).2) = [] ∧
    next_id (database (serve req w).2) = next_id (database w) ∨
  added (ids w) (ids (serve req w).2) = [next_id (database w)] ∧
    next_id (database (serve req w).2) = next_id (database w) + 1.
Proof.
  pose proof (serve_cases req w) as H.
  destruct (serve req w) as [r w']. unfold ids. simpl in *.
  destruct H; cbn [database];
    rewrite ?store_update_ids, ?store_delete_ids by done;
    try (left; split; [by apply added_sublist|done]).
  - right. unfold store_insert. simpl. by rewrite fmap_app, added_app.
  - left. split; [apply added_sublist, sublist_filter|done].
Qed.

Lemma issued_fresh reqs w :
  store_ok (database w) →
  NoDup (issued reqs w) ∧ Forall (λ k, (next_id (database w) ≤ k)%N) (issued reqs w).
Proof.
  revert w. induction reqs as [|req reqs IH]; intros w Hw; cbn [issued].
  { split; [apply NoDup_nil_2 | apply Forall_nil_2]. }
  pose proof (serve_extends req w Hw) as (Hok & _ & _).
  destruct (IH (serve req w).2 Hok) as [IHnd IHge].
  rewrite Forall_forall in IHge.
  destruct (serve_added req w) as [[-> Hn]|[-> Hn]]; rewrite Hn in IHge; simpl.
  - split; [done|]. by apply Forall_forall.
  - split.
    + apply NoDup_cons. split; [|done]. intros Hin%IHge. lia.
    + apply Forall_cons. split; [lia|]. apply Forall_forall.
      intros k Hk%IHge. lia.
Qed.

Lemma issued_app reqs1 reqs2 w :
  issued (reqs1 ++ reqs2) w = (issued reqs1 w ++ issued reqs2 (run reqs1 w))%list.
Proof.
  revert w. induction reqs1 as [|req reqs1 IH]; intros w; [done|].
  unfold run in *. cbn [issued serve_all app]. simpl. rewrite IH.
  destruct (serve req w) as [r w']. simpl.
  destruct (serve_all reqs1 w'). by rewrite <- app_assoc.
Qed.

Lemma serve_create t d w :
  t ≠ "" →
  serve (request_of (Create t d)) w =
  (Redirect "/", mkWorld (store_insert t d (database w)) (flashes w)).
Proof.
  intros Ht. rewrite (serve_routed _ w main_new_task);
    [|vm_compute; reflexivity|simpl; repeat constructor].
  cbn [view]. by apply dispatch_new_task_created.
Qed.

Lemma serve_create_rejected d w :
  serve (request_of (Create EmptyString d)) w =
  (Redirect "/task/new", mkWorld (database w) (flashes w ++ ["Title is required"])).
Proof.
  rewrite (serve_routed _ w main_new_task);
    [|vm_compute; reflexivity|simpl; repeat constructor].
  cbn [view]. by apply (dispatch_new_task_empty _ _ d).
Qed.

(** A successful creation hands out exactly one id, the store's [next_id];
    no other operation hands out any. *)
Lemma issued_by_op o w :
  added (ids w) (ids (serve (request_of o) w).2) =
  if creates o then [next_id (database w)] else [].
Proof.
  destruct o as [t d|task_id t d c|task_id|task_id]; cbn [creates];
    try (apply added_sublist, serve_ids_sublist;
         cbn [request_of req_path]; by apply url_for_not_new).
  case_bool_decide as Ht; cbn [negb].
  - subst t. rewrite serve_create_rejected. by apply added_sublist.
  - rewrite serve_create by done. unfold ids, store_insert. simpl.
    by rewrite fmap_app, added_app.
Qed.

Lemma issued_counts_creates ops w :
  length (issued (request_of <$> ops) w) = length (filter creates ops).
Proof.
  revert w. induction ops as [|o ops IH]; intros w; [done|].
  rewrite fmap_cons. cbn [issued]. rewrite length_app, IH, issued_by_op.
  rewrite filter_cons. by destruct (creates o).
Qed.

(** C9: over any sequence of create, edit, toggle and delete operations from
    the empty store, every creation of a task is given one id, the ids given
    are pairwise distinct, at every moment the tasks on record have pairwise
    distinct ids, and an id that a task has held is never given again by the
    operations that follow, whether or not that task has been deleted in the
    meantime. *)
Theorem ids_never_reused (ops1 ops2 : list op) :
  length (issued (request_of <$> (ops1 ++ ops2)%list) initial) =
    length (filter creates (ops1 ++ ops2)%list) ∧
  NoDup (issued (request_of <$> (ops1 ++ ops2)%list) initial) ∧
  NoDup (ids (run (request_of <$> ops1) initial)) ∧
  ∀ k, k ∈ ids (run (request_of <$> ops1) initial) →
       k ∉ issued (request_of <$> ops2) (run (request_of <$> ops1) initial).
Proof.
  pose proof (run_store_ok (request_of <$> ops1) initial empty_store_ok) as Hok.
  split; [apply issued_counts_creates|].
  split; [apply issued_fresh, empty_store_ok|].
  split; [apply Hok|].
  intros k Hk Hk'.
  destruct (issued_fresh (request_of <$> ops2) _ Hok) as [_ Hge].
  destruct Hok as [_ Hlt]. rewrite Forall_forall in Hlt, Hge.
  apply Hlt in Hk. apply Hge in Hk'. lia.
Qed.

(** * Beyond the listed claims *)

(** ** Reading never writes *)

(** X1: a GET request, whatever its path and form, changes neither the
    store nor the flashed messages. *)
Theorem get_is_read_only (req : request) (w : world) :
  req_method req = GET → (serve req w).2 = w.
Proof.
  intros Hm. pose proof (serve_cases req w) as H.
  destruct (serve req w) as [r w']. simpl in *.
  destruct H; try done; congruence.
Qed.

Lemma get_is_read_only_witness :
  (serve (mkRequest GET "/task/1/edit" (form_of [("title", "x")]))
     (mkWorld (mkStore [mkTask 1 "a" "b" true] 2) ["m"])).2 =
  mkWorld (mkStore [mkTask 1 "a" "b" true] 2) ["m"].
Proof. apply get_is_read_only. reflexivity. Defined.

(** X2: a request whose method the rule does not list is answered 405
    before the view runs: a GET cannot delete or toggle a task, and a POST to
    the list view does nothing, whether or not the task exists. *)
Theorem method_not_allowed (req : request) (w : world) (e : endpoint) :
  req_path req = url_for e →
  req_method req ∉ methods e →
  serve req w = (ErrorPage MethodNotAllowed, w) ∧
  status (serve req w).1 = 405.
Proof.
  intros Hp Hm. unfold serve. rewrite Hp, url_match_url_for.
  by rewrite decide_False.
Qed.

Lemma method_not_allowed_witness :
  serve (mkRequest GET "/task/1/delete" ∅)
    (mkWorld (mkStore [mkTask 1 "a" "b" true] 2) []) =
  (ErrorPage MethodNotAllowed, mkWorld (mkStore [mkTask 1 "a" "b" true] 2) []) ∧
  status (serve (mkRequest GET "/task/1/delete" ∅)
            (mkWorld (mkStore [mkTask 1 "a" "b" true] 2) [])).1 = 405.
Proof.
  apply (method_not_allowed _ _ (main_delete_task 1)); [reflexivity|].
  simpl. intros H%list_elem_of_singleton. discriminate H.
Defined.

(** X3: a request that flashes does not write, and a request that writes
    does not flash: either the flashed messages are as before, or exactly
    "Title is required" was added, the store is as before and the answer is
    the redirect to /task/new. *)
Theorem flash_or_write (req : request) (w : world) :
  flashes (serve req w).2 = flashes w ∨
  (flashes (serve req w).2 = (flashes w ++ ["Title is required"])%list ∧
   database (serve req w).2 = database w ∧
   (serve req w).1 = Redirect "/task/new").
Proof.
  pose proof (serve_cases req w) as H.
  destruct (serve req w) as [r w']. simpl in *.
  destruct H; simpl; first [by left | by right].
Qed.



(** ** Titles *)

Lemma store_update_Forall (P : Task → Prop) k f s :
  (∀ t, P t → P (f t)) →
  Forall P (rows s) → Forall P (rows (store_update k f s)).
Proof.
  intros Hf Hs. unfold store_update. simpl. rewrite Forall_fmap.
  eapply Forall_impl; [done|]. intros t Ht. simpl.
  destruct (has_id k t); auto.
Qed.

(** X5: an empty title can only be stored by an edit that submits one: if
    every stored title is non-empty, it is so again after any request whose
    form does not carry an empty title, and after a request to the URL of any
    endpoint but the edit form whatever its form carries; creation in
    particular never stores an empty title. *)
Theorem titles_stay_nonempty (req : request) (w : world) :
  req_form req !! "title" ≠ Some EmptyString ∨
    (∃ e, (∀ task_id, e ≠ main_edit_task task_id) ∧ req_path req = url_for e) →
  Forall (λ t, title t ≠ EmptyString) (rows (database w)) →
  Forall (λ t, title t ≠ EmptyString) (rows (database (serve req w).2)).
Proof.
  intros Hp Hw. pose proof (serve_cases req w) as H.
  destruct (serve req w) as [r w']. simpl in *.
  destruct H as [| | | | |task_id task t d _ Hedit _ Ht _| |]; try done.
  - simpl. apply Forall_app. split; [done|]. by apply Forall_singleton.
  - assert (t ≠ EmptyString) as Hne.
    { destruct Hp as [Hp|(e & He & Hp)]; [congruence|].
      rewrite Hp, url_match_url_for in Hedit. injection Hedit as ->.
      by destruct (He task_id). }
    cbn [database]. do 2 (apply store_update_Forall; [done|]).
    apply store_update_Forall; [|done]. by intros.
  - simpl. rewrite Forall_forall in Hw. apply Forall_forall.
    intros t [_ Ht]%list_elem_of_filter. auto.
  - cbn [database]. by apply store_update_Forall.
Qed.

Lemma titles_stay_nonempty_witness :
  Forall (λ t, title t ≠ EmptyString)
    (rows (database
       (serve (mkRequest POST "/task/new" (form_of [("title", ""); ("description", "x")]))
          (mkWorld (mkStore [mkTask 1 "a" "b" true] 2) [])).2)).
Proof.
  apply titles_stay_nonempty.
  - right. exists main_new_task. split; [discriminate|reflexivity].
  - apply Forall_singleton. discriminate.
Defined.

Example edit_keeps_a_submitted_title :
  Forall (λ t, title t ≠ EmptyString)
    (rows (database
       (serve (mkRequest POST "/task/1/edit" (form_of [("title", "c"); ("description", "")]))
          (mkWorld (mkStore [mkTask 1 "a" "b" true] 2) [])).2)).
Proof. vm_compute. apply Forall_singleton. discriminate. Qed.

Example edit_can_empty_a_title :
  rows (database
    (serve (mkRequest POST "/task/1/edit" (form_of [("title", ""); ("description", "b")]))
       (mkWorld (mkStore [mkTask 1 "a" "b" true] 2) [])).2)
  = [mkTask 1 "" "b" false].
Proof. vm_compute. reflexivity. Qed.

(** ** Redirects *)

(** X6: every redirect a request is answered with leads somewhere: a GET of
    its location, on any store, renders a page with status 200 and changes
    nothing. *)
Theorem redirects_lead_to_pages (req : request) (w : world) (location : string) :
  (serve req w).1 = Redirect location →
  ∀ form w', ∃ template tasks,
    serve (mkRequest GET location form) w' = (Html template tasks, w') ∧
    status (Html template tasks) = 200.
Proof.
  intros Hr form w'. pose proof (serve_cases req w) as H.
  destruct (serve req w) as [r w1]. simpl in *. subst r.
  assert (location = "/task/new" ∨ location = "/") as [->| ->]
    by (inversion H; auto).
  - exists "create_task.html", [].
    rewrite (serve_routed _ w' main_new_task);
      [|vm_compute; reflexivity|simpl; repeat constructor].
    cbn [view]. by rewrite dispatch_new_task_get.
  - exists "index.html", (rows (database w')).
    rewrite (serve_routed _ w' main_index);
      [|vm_compute; reflexivity|simpl; repeat constructor].
    cbn [view]. by rewrite dispatch_index.
Qed.

Lemma redirects_lead_to_pages_witness :
  ∃ template tasks,
    serve (mkRequest GET "/" ∅) (mkWorld (mkStore [mkTask 2 "c" "d" false] 3) []) =
      (Html template tasks, mkWorld (mkStore [mkTask 2 "c" "d" false] 3) []) ∧
    status (Html template tasks) = 200.
Proof.
  apply (redirects_lead_to_pages (mkRequest POST "/task/1/delete" ∅)
           (mkWorld (mkStore [mkTask 1 "a" "b" true] 2) []) "/").
  reflexivity.
Defined.

(** ** Paths *)




(** X8: building a URL and matching it again gives the endpoint back, with
    the same task id, so two different endpoints never share a URL. *)
Theorem url_for_round_trip (e : endpoint) :
  url_match (url_for e) = Some e ∧
  ∀ e', url_for e = url_for e' → e = e'.
Proof.
  split; [apply url_match_url_for|].
  intros e' Heq. apply (inj Some).
  by rewrite <- (url_match_url_for e), Heq, url_match_url_for.
Qed.

(** ** Creating, on any store *)

(** X9: on any store, a POST to /task/new with a non-empty title and a
    description puts the new task, not completed, at the end of the list that
    GET / shows, after the tasks that were there, and every task that could be
    looked up before is looked up unchanged. *)
Theorem create_appends (post_new get_index : request) (w : world) t d :
  req_method post_new = POST →
  req_path post_new = "/task/new" →
  req_form post_new !! "title" = Some t →
  t ≠ EmptyString →
  req_form post_new !! "description" = Some d →
  req_method get_index = GET →
  req_path get_index = "/" →
  (serve_all [post_new; get_index] w).1 =
    [Redirect "/";
     Html "index.html"
       (rows (database w) ++ [mkTask (next_id (database w)) t d false])] ∧
  ∀ k task, get k w = Some task → get k (serve post_new w).2 = Some task.
Proof.
  intros Hm Hp Ht Hne Hd Hm' Hp'.
  assert (serve post_new w =
          (Redirect "/", mkWorld (store_insert t d (database w)) (flashes w)))
    as Hserve.
  { rewrite (serve_routed post_new w main_new_task) by routed Hp Hm.
    cbn [view]. by apply dispatch_new_task_created. }
  split.
  - cbn [serve_all]. rewrite Hserve.
    rewrite (serve_routed get_index _ main_index) by routed Hp' Hm'.
    cbn [view]. by rewrite dispatch_index.
  - intros k task [Hb Hs]%get_Some. rewrite Hserve.
    rewrite get_in_range by done. simpl. by rewrite store_get_insert, Hs.
Qed.

Lemma create_appends_witness :
  (serve_all
     [mkRequest POST "/task/new" (form_of [("title", "c"); ("description", "")]);
      mkRequest GET "/" ∅]
     (mkWorld (mkStore [mkTask 1 "a" "b" true] 5) [])).1 =
    [Redirect "/";
     Html "index.html" [mkTask 1 "a" "b" true; mkTask 5 "c" "" false]] ∧
  ∀ k task,
    get k (mkWorld (mkStore [mkTask 1 "a" "b" true] 5) []) = Some task →
    get k (serve (mkRequest POST "/task/new"
                    (form_of [("title", "c"); ("description", "")]))
             (mkWorld (mkStore [mkTask 1 "a" "b" true] 5) [])).2 = Some task.
Proof.
  apply (create_appends
           (mkRequest POST "/task/new" (form_of [("title", "c"); ("description", "")]))
           (mkRequest GET "/" ∅)
           (mkWorld (mkStore [mkTask 1 "a" "b" true] 5) []) "c" "");
    (reflexivity || discriminate).
Defined.

(** ** Deleting *)

Lemma filter_unknown_id (l : list Task) k :
  k ∉ id <$> l → filter (λ t, id t ≠ k) l = l.
Proof.
  induction l as [|t l IH]; [done|].
  rewrite fmap_cons, not_elem_of_cons. intros [Hk Hl].
  rewrite filter_cons, decide_True by congruence. by rewrite IH.
Qed.

Lemma filter_known_id (l : list Task) k task :
  NoDup (id <$> l) →
  find (has_id k) l = Some task →
  ∃ l1 l2, l = (l1 ++ task :: l2)%list ∧
           filter (λ t, id t ≠ k) l = (l1 ++ l2)%list.
Proof.
  induction l as [|t l IH]; [done|].
  rewrite fmap_cons, NoDup_cons. intros [Ht Hnd]. simpl. unfold has_id at 1.
  case_bool_decide as Hid.
  - intros [= ->]. exists [], l. split; [done|].
    rewrite filter_cons, decide_False by auto. subst k.
    by apply filter_unknown_id.
  - intros Hfind. destruct (IH Hnd Hfind) as (l1 & l2 & -> & Hf).
    exists (t :: l1), l2. split; [done|].
    by rewrite filter_cons, decide_True, Hf by done.
Qed.

(** X10: deleting an existing task leaves every other task, the next id and
    the flashed messages as they were, and on a store whose ids are pairwise
    distinct it takes exactly that one task out of the list, the others
    keeping their order. *)
Theorem delete_frame (req : request) (w : world) task_id task :
  req_method req = POST →
  req_path req = url_for (main_delete_task task_id) →
  get task_id w = Some task →
  ∃ w',
    serve req w = (Redirect "/", w') ∧
    (∀ k, k ≠ task_id → get k w' = get k w) ∧
    next_id (database w') = next_id (database w) ∧
    flashes w' = flashes w ∧
    (NoDup (ids w) →
     ∃ before after,
       rows (database w) = (before ++ task :: after)%list ∧
       rows (database w') = (before ++ after)%list).
Proof.
  intros Hm Hp Hg. eexists. split.
  { rewrite (serve_routed req w (main_delete_task task_id)) by routed Hp Hm.
    cbn [view]. by apply (dispatch_delete_task _ _ task). }
  destruct (get_Some _ _ _ Hg) as [Hb Hs].
  split; [|split; [done|split; [done|]]].
  - intros k Hk. apply get_ext. simpl. by rewrite store_get_delete, decide_False.
  - intros Hnd. by apply filter_known_id.
Qed.

Lemma delete_frame_witness :
  ∃ w',
    serve (mkRequest POST "/task/2/delete" ∅)
      (mkWorld (mkStore [mkTask 1 "a" "" true; mkTask 2 "b" "" false;
                         mkTask 3 "c" "" false] 4) ["m"])
    = (Redirect "/", w') ∧
    (∀ k, k ≠ 2 →
       get k w' =
       get k (mkWorld (mkStore [mkTask 1 "a" "" true; mkTask 2 "b" "" false;
                                mkTask 3 "c" "" false] 4) ["m"])) ∧
    next_id (database w') = 4 ∧
    flashes w' = ["m"] ∧
    ∃ before after,
      [mkTask 1 "a" "" true; mkTask 2 "b" "" false; mkTask 3 "c" "" false] =
        (before ++ mkTask 2 "b" "" false :: after)%list ∧
      rows (database w') = (before ++ after)%list.
Proof.
  destruct (delete_frame (mkRequest POST "/task/2/delete" ∅)
              (mkWorld (mkStore [mkTask 1 "a" "" true; mkTask 2 "b" "" false;
                                 mkTask 3 "c" "" false] 4) ["m"])
              2 (mkTask 2 "b" "" false))
    as (w' & Hs & Hk & Hn & Hf & Hrows); [reflexivity..|].
  exists w'. repeat (split; [assumption|]).
  apply Hrows. apply (bool_decide_unpack _). vm_compute. exact I.
Defined.

(** ** Editing, continued *)

(** X11: an edit POST whose form lacks the title or the description field is
    answered 400 and changes nothing, also when the title was there and had
    already been written to the loaded task before the description was
    found missing: nothing is committed. *)
Theorem edit_missing_field_atomic (req : request) (w : world) task_id task :
  req_method req = POST →
  req_path req = url_for (main_edit_task task_id) →
  get task_id w = Some task →
  req_form req !! "title" = None ∨ req_form req !! "description" = None →
  serve req w = (ErrorPage BadRequest, w) ∧ status (serve req w).1 = 400.
Proof.
  intros Hm Hp Hg Hmiss.
  rewrite (serve_routed req w (main_edit_task task_id)) by routed Hp Hm.
  cbn [view]. by rewrite (dispatch_edit_task_missing _ _ _ task).
Qed.

Lemma edit_missing_field_atomic_witness :
  serve (mkRequest POST "/task/1/edit" (form_of [("title", "Updated")]))
    (mkWorld (mkStore [mkTask 1 "a" "b" true] 2) []) =
  (ErrorPage BadRequest, mkWorld (mkStore [mkTask 1 "a" "b" true] 2) []) ∧
  status (serve (mkRequest POST "/task/1/edit" (form_of [("title", "Updated")]))
            (mkWorld (mkStore [mkTask 1 "a" "b" true] 2) [])).1 = 400.
Proof.
  apply (edit_missing_field_atomic _ _ 1 (mkTask 1 "a" "b" true));
    [reflexivity..|right; reflexivity].
Defined.

(** X12: what an edit stores is what the edit form shows next: after a
    successful POST to /task/{id}/edit, a GET of the same path renders
    edit_task.html with the task carrying the submitted title and description
    and the submitted state of the completed box; the ids on record are the
    same as before the edit. *)
Theorem edit_then_show (post_edit get_edit : request) (w : world) task_id task t d :
  req_method post_edit = POST →
  req_path post_edit = url_for (main_edit_task task_id) →
  get task_id w = Some task →
  req_form post_edit !! "title" = Some t →
  req_form post_edit !! "description" = Some d →
  req_method get_edit = GET →
  req_path get_edit = url_for (main_edit_task task_id) →
  (serve_all [post_edit; get_edit] w).1 =
    [Redirect "/";
     Html "edit_task.html"
       [mkTask task_id t d (form_contains post_edit "completed")]] ∧
  ids (serve post_edit w).2 = ids w.
Proof.
  intros Hm Hp Hg Ht Hd Hm' Hp'. destruct (get_Some _ _ _ Hg) as [Hb Hs].
  assert (serve post_edit w =
          (Redirect "/",
           mkWorld (store_update task_id (set_completed (form_contains post_edit "completed"))
                      (store_update task_id (set_description d)
                         (store_update task_id (set_title t) (database w))))
                   (flashes w))) as Hserve.
  { rewrite (serve_routed post_edit w (main_edit_task task_id)) by routed Hp Hm.
    cbn [view]. by apply (dispatch_edit_task_post _ _ _ task). }
  split.
  - cbn [serve_all]. rewrite Hserve.
    rewrite (serve_routed get_edit _ (main_edit_task task_id)) by routed Hp' Hm'.
    cbn [view].
    rewrite (dispatch_edit_task_get _ _ _
               (mkTask task_id t d (form_contains post_edit "completed")));
      [done|done|].
    rewrite get_in_range by done.
    cbn [database]. rewrite !store_get_update, !decide_True by done.
    rewrite Hs. simpl. unfold set_completed, set_description, set_title. simpl.
    by rewrite (store_get_id _ _ _ Hs).
  - rewrite Hserve. unfold ids. cbn [database snd].
    by rewrite !store_update_ids.
Qed.

Lemma edit_then_show_witness :
  (serve_all
     [mkRequest POST "/task/1/edit"
        (form_of [("title", "Updated"); ("description", ""); ("completed", "on")]);
      mkRequest GET "/task/1/edit" ∅]
     (mkWorld (mkStore [mkTask 1 "a" "b" false; mkTask 2 "c" "d" false] 3) [])).1 =
    [Redirect "/"; Html "edit_task.html" [mkTask 1 "Updated" "" true]] ∧
  ids (serve (mkRequest POST "/task/1/edit"
                (form_of [("title", "Updated"); ("description", ""); ("completed", "on")]))
         (mkWorld (mkStore [mkTask 1 "a" "b" false; mkTask 2 "c" "d" false] 3) [])).2
  = [1; 2].
Proof.
  apply (edit_then_show
           (mkRequest POST "/task/1/edit"
              (form_of [("title", "Updated"); ("description", ""); ("completed", "on")]))
           (mkRequest GET "/task/1/edit" ∅)
           (mkWorld (mkStore [mkTask 1 "a" "b" false; mkTask 2 "c" "d" false] 3) [])
           1 (mkTask 1 "a" "b" false) "Updated" ""); reflexivity.
Defined.

(** ** How the operations relate *)

Lemma store_update_ext k f g s :
  (∀ t, t ∈ rows s → id t = k → f t = g t) →
  store_update k f s = store_update k g s.
Proof.
  intros Hfg. unfold store_update. f_equal.
  apply list_fmap_ext. intros _ t Ht%list_elem_of_lookup_2.
  unfold has_id. case_bool_decide; auto.
Qed.

Lemma store_update_compose k f g s :
  (∀ t, id (f t) = id t) →
  store_update k g (store_update k f s) = store_update k (g ∘ f) s.
Proof.
  intros Hf. unfold store_update. simpl. f_equal.
  rewrite <- list_fmap_compose. apply list_fmap_ext. intros _ t _. simpl.
  unfold has_id. destruct (bool_decide_reflect (id t = k)) as [Ht|Ht]; simpl.
  - by rewrite bool_decide_eq_true_2 by (by rewrite Hf).
  - by rewrite bool_decide_eq_false_2.
Qed.

Lemma store_get_unique k s task t :
  NoDup (id <$> rows s) →
  store_get k s = Some task → t ∈ rows s → id t = k → t = task.
Proof.
  unfold store_get. intros Hnd Hfind Ht Hid.
  destruct (filter_known_id _ _ _ Hnd Hfind) as (l1 & l2 & Hl & Hf).
  assert (t ∈ filter (λ t, id t ≠ k) (rows s) ∨ t = task) as [Hin| ->]; [|by
    apply list_elem_of_filter in Hin as [? _]|done].
  rewrite Hf. rewrite Hl in Ht.
  rewrite !elem_of_app, elem_of_cons in *. tauto.
Qed.

(** X13: on a store whose ids are pairwise distinct, toggling a task is the
    same as editing it with its own title and description and the completed
    box ticked exactly when the task was not completed: both requests get the
    same answer and leave the same store. *)
Theorem toggle_is_edit (post_toggle post_edit : request) (w : world) task_id task :
  NoDup (ids w) →
  get task_id w = Some task →
  req_method post_toggle = POST →
  req_path post_toggle = url_for (main_toogle_task task_id) →
  req_method post_edit = POST →
  req_path post_edit = url_for (main_edit_task task_id) →
  req_form post_edit !! "title" = Some (title task) →
  req_form post_edit !! "description" = Some (description task) →
  (is_Some (req_form post_edit !! "completed") ↔ completed task = false) →
  serve post_edit w = serve post_toggle w.
Proof.
  intros Hnd Hg Hm Hp Hm' Hp' Ht Hd Hc.
  rewrite (serve_toogle post_toggle w task_id task) by done.
  rewrite (serve_routed post_edit w (main_edit_task task_id)) by routed Hp' Hm'.
  cbn [view].
  rewrite (dispatch_edit_task_post _ _ _ task (title task) (description task))
    by done.
  do 2 f_equal. rewrite !store_update_compose by done.
  apply store_update_ext. intros t Hin Hid.
  rewrite (store_get_unique task_id (database w) task t)
    by (done || by apply get_Some in Hg as [_ ?]).
  unfold form_contains. destruct task as [i ti de [|]]; simpl in *.
  - rewrite bool_decide_eq_false_2; [done|]. intros H%Hc. discriminate H.
  - rewrite bool_decide_eq_true_2; [done|]. by apply Hc.
Qed.

Lemma toggle_is_edit_witness :
  serve (mkRequest POST "/task/1/edit"
           (form_of [("title", "a"); ("description", "b"); ("completed", "on")]))
    (mkWorld (mkStore [mkTask 1 "a" "b" false; mkTask 2 "c" "d" false] 3) []) =
  serve (mkRequest POST "/task/1/toogle" ∅)
    (mkWorld (mkStore [mkTask 1 "a" "b" false; mkTask 2 "c" "d" false] 3) []).
Proof.
  apply (toggle_is_edit (mkRequest POST "/task/1/toogle" ∅) _ _ 1
           (mkTask 1 "a" "b" false)); try reflexivity.
  - apply (bool_decide_unpack _). vm_compute. exact I.
  - split; [reflexivity|]. intros _. by eexists.
Defined.

(** X14: toggles of two different tasks commute: served in either order
    they leave the same store and flashed messages. *)
Theorem toggles_commute (toggle_a toggle_b : request) (w : world) a b task_a task_b :
  a ≠ b →
  get a w = Some task_a →
  get b w = Some task_b →
  req_method toggle_a = POST →
  req_path toggle_a = url_for (main_toogle_task a) →
  req_method toggle_b = POST →
  req_path toggle_b = url_for (main_toogle_task b) →
  serve_all [toggle_a; toggle_b] w = serve_all [toggle_b; toggle_a] w.
Proof.
  intros Hab Ha Hb Hma Hpa Hmb Hpb. cbn [serve_all].
  rewrite (serve_toogle toggle_a w a task_a) by done.
  rewrite (serve_toogle toggle_b w b task_b) by done.
  rewrite (serve_toogle toggle_b _ b task_b)
    by (try done; rewrite <- Hb; apply get_ext; simpl;
        by rewrite store_get_update, decide_False).
  rewrite (serve_toogle toggle_a _ a task_a)
    by (try done; rewrite <- Ha; apply get_ext; simpl;
        by rewrite store_get_update, decide_False).
  do 2 f_equal. cbn [database flashes].
  unfold store_update. cbn [rows next_id]. f_equal.
  rewrite <- !list_fmap_compose. apply list_fmap_ext. intros _ t _. simpl.
  unfold has_id. repeat case_bool_decide; simpl in *; congruence.
Qed.

Lemma toggles_commute_witness :
  serve_all [mkRequest POST "/task/1/toogle" ∅; mkRequest POST "/task/2/toogle" ∅]
    (mkWorld (mkStore [mkTask 1 "a" "b" false; mkTask 2 "c" "d" true] 3) []) =
  serve_all [mkRequest POST "/task/2/toogle" ∅; mkRequest POST "/task/1/toogle" ∅]
    (mkWorld (mkStore [mkTask 1 "a" "b" false; mkTask 2 "c" "d" true] 3) []).
Proof.
  apply (toggles_commute _ _ _ 1 2 (mkTask 1 "a" "b" false) (mkTask 2 "c" "d" true));
    (reflexivity || discriminate).
Defined.

(** ** Answers and changes *)

(** X15: a request that is not answered with a redirect has changed
    nothing: error pages (400, 404, 405) and rendered pages never come with a
    write or a flashed message. *)
Theorem only_redirects_change (req : request) (w : world) :
  (∀ location, (serve req w).1 ≠ Redirect location) →
  (serve req w).2 = w.
Proof.
  intros Hr. pose proof (serve_cases req w) as H.
  destruct (serve req w) as [r w']. simpl in *.
  destruct H; try done; by edestruct Hr.
Qed.

Lemma only_redirects_change_witness :
  (serve (mkRequest POST "/task/9/edit" (form_of [("title", "x"); ("description", "y")]))
     (mkWorld (mkStore [mkTask 1 "a" "b" true] 2) ["m"])).2 =
  mkWorld (mkStore [mkTask 1 "a" "b" true] 2) ["m"].
Proof. apply only_redirects_change. intros location. vm_compute. discriminate. Defined.

(** X16: a POST is never answered with a rendered page: it gets a redirect
    or an error page. *)
Theorem post_never_renders (req : request) (w : world) :
  req_method req = POST →
  ∀ template tasks, (serve req w).1 ≠ Html template tasks.
Proof.
  intros Hm template tasks Hr. pose proof (serve_cases req w) as H.
  destruct (serve req w) as [r w']. simpl in *. subst r.
  inversion H; congruence.
Qed.

Lemma post_never_renders_witness :
  (serve (mkRequest POST "/task/new" (form_of [("title", ""); ("description", "")]))
     (mkWorld empty_store [])).1 ≠ Html "create_task.html" [].
Proof. apply post_never_renders. reflexivity. Defined.
